(** * Offline service worker: request interception, sync queue and replay

    A shallow embedding of [service-worker.js]: the fetch listener with
    [fetchAndUpdateCache] and [handleAPIRequest], the queueing operation
    [addToSyncQueue], the replay engine [processSyncQueue] with the [sync]
    listener, the [install] and [activate] listeners, and the [push] and
    [notificationclick] listeners.

    The worker is asynchronous JavaScript over three platform services
    (CacheStorage, IndexedDB and the network).  Asynchronous functions are
    embedded in a reader/state/outcome monad [Async]: the reader is the
    environment [Env] (what the platform answers), the state is the [World]
    (caches, the object store, transactions, a trace of platform calls and the
    tasks that were started without being awaited), and the outcome says how
    the promise settles: fulfilled, rejected, or never.

    The platform rules that decide what the worker's code does are part of the
    embedding, each at the definition that stands for the call:
    - [Request.url] is the absolute URL ([href]);
    - [fetch(request)] takes the body of the request object, and
      [request.clone()] throws on a request whose body was taken
      ([fetch_request], [Request_clone]);
    - the Cache API stores and matches GET requests only, and stores no
      partial response and no response with [Vary: *] ([caches_match],
      [cache_put], [cache_addAll]);
    - an IndexedDB transaction commits when control returns to the event loop
      with none of its requests pending, and a call on a committed transaction
      throws ([event_loop], [store_delete]);
    - a promise returned from a [try] block without [await] is not covered by
      the [catch] clause ([addToSyncQueue]). *)

From Stdlib Require Import ZArith List String Ascii Bool Lia QArith DecimalString.
Import ListNotations.
Local Open Scope string_scope.
Local Open Scope Z_scope.

Set Implicit Arguments.

(** ** Requests, responses and URLs *)

Inductive Protocol := Http | Https.

Definition protocol_string (p : Protocol) : string :=
  match p with Http => "http:" | Https => "https:" end.

(** A parsed URL, with the accessors the worker reads.  [search] is empty or
    starts with [?], as the [URL.search] accessor gives it.  The URLs
    considered have the default port of their protocol and no fragment. *)
Record URL := mkURL {
  protocol : Protocol;
  hostname : string;
  pathname : string;
  search : string
}.

(** [URL.href]: the serialised absolute URL.  [Request.url] is this string,
    also for a request the page made with a relative path. *)
Definition href (u : URL) : string :=
  protocol_string (protocol u) ++ "//" ++ hostname u ++ pathname u ++ search u.

Definition Headers := list (string * string).

(** A [Request] object.  [body] is [None] for a request without a body;
    [bodyUsed] is set once the body stream has been handed to a consumer. *)
Record Request := mkRequest {
  method : string;
  url : URL;
  mode : string;
  headers : Headers;
  credentials : string;
  body : option (list Byte.byte);
  bodyUsed : bool
}.

(** A value of JSON, as [JSON.parse] returns it and [JSON.stringify] takes it. *)
#[local] Unset Elimination Schemes.
Inductive JValue :=
| JNull
| JBool (b : bool)
| JNum (q : Q)
| JStr (s : string)
| JArr (l : list JValue)
| JObj (fields : list (string * JValue)).
#[local] Set Elimination Schemes.

(** The body of a response: some text, or the text [JSON.stringify] gives for
    a value. *)
Inductive Body :=
| TextBody (s : string)
| JsonBody (v : JValue).

Record Response := mkResponse {
  status : Z;
  rtype : string;
  rheaders : Headers;
  rbody : Body
}.

(** [Response.ok]: the status is in the range 200-299. *)
Definition ok (r : Response) : bool := (200 <=? status r) && (status r <=? 299).

(** [new Response(body, { status, headers })]: a synthetic response has type
    [default]; the status is 200 when the init gives none. *)
Definition new_Response (b : Body) (st : option Z) (h : Headers) : Response :=
  mkResponse (match st with Some s => s | None => 200 end) "default" h b.

(** *** The [Vary] header of a response *)

(** Header names are compared without regard to case. *)
Definition lower (c : ascii) : ascii :=
  let n := nat_of_ascii c in
  if (65 <=? n)%nat && (n <=? 90)%nat then ascii_of_nat (n + 32) else c.

Fixpoint lowercase (s : string) : string :=
  match s with
  | EmptyString => EmptyString
  | String c s' => String (lower c) (lowercase s')
  end.

(** The field values of a header value: its parts between commas. *)
Fixpoint field_values (s : string) : list string :=
  match s with
  | EmptyString => [EmptyString]
  | String c s' =>
      if (c =? ",")%char
      then EmptyString :: field_values s'
      else match field_values s' with
           | v :: vs => String c v :: vs
           | [] => [String c EmptyString]
           end
  end.

Definition is_ows (c : ascii) : bool := (c =? " ")%char || (c =? "009")%char.

Fixpoint drop_ows (s : string) : string :=
  match s with
  | String c s' => if is_ows c then drop_ows s' else s
  | EmptyString => s
  end.

Fixpoint all_ows (s : string) : bool :=
  match s with
  | String c s' => is_ows c && all_ows s'
  | EmptyString => true
  end.

(** A field value is [*] when a star is all it holds besides white space. *)
Definition is_star (v : string) : bool :=
  match drop_ows v with
  | String c rest => (c =? "*")%char && all_ows rest
  | EmptyString => false
  end.

(** The response has a [Vary] header with the field value [*].  The Cache API
    stores no such response: [cache.put] and [cache.addAll] reject it. *)
Definition vary_star (r : Response) : bool :=
  existsb (fun h => (lowercase (fst h) =? "vary")%string
                    && existsb is_star (field_values (snd h)))
          (rheaders r).

(** ** Errors and outcomes *)

Inductive JsError :=
| TypeError (msg : string)
| NetworkFailure
| TransactionInactiveError
| StoreError (msg : string).

(** How a promise settles. *)
Inductive Outcome (A : Type) :=
| Fulfilled (a : A)
| Rejected (e : JsError)
| NeverSettles.

Arguments Rejected {A} e.
Arguments NeverSettles {A}.

(** What the network does with one fetch. *)
Inductive FetchOutcome :=
| NetResponse (r : Response)
| NetReject
| NetNever.

(** ** The durable queue store *)

(** An object of the [sync-queue] object store.  [entry_body] and [processed]
    are optional properties: [None] is an absent property. *)
Record QueueEntry := mkEntry {
  id : Z;
  entry_url : string;
  entry_method : string;
  entry_headers : Headers;
  entry_credentials : string;
  timestamp : Z;
  entry_body : option (list Byte.byte);
  processed : option bool
}.

(** The value handed to [store.add]: a queue entry without its key. *)
Record RequestData := mkRequestData {
  rd_url : string;
  rd_method : string;
  rd_headers : Headers;
  rd_credentials : string;
  rd_timestamp : Z;
  rd_body : option (list Byte.byte)
}.

Definition stored (k : Z) (d : RequestData) : QueueEntry :=
  mkEntry k (rd_url d) (rd_method d) (rd_headers d) (rd_credentials d)
          (rd_timestamp d) (rd_body d) None.

(** ** Platform calls, as they are traced *)

Record Message := mkMessage {
  msg_type : string;
  msg_timestamp : Z
}.

Inductive Op :=
| OpFetch (u : string) (m : string) (b : option (list Byte.byte))
| OpTransaction (t : nat)
| OpGetAll (t : nat)
| OpAdd (t : nat) (d : RequestData)
| OpDelete (t : nat) (k : Z)
| OpSyncRegister (tag : string)
| OpPostMessage (client : nat) (m : Message)
| OpConsoleError (msg : string).

(** A cache of the CacheStorage: stored responses by request URL. *)
Definition Cache := list (string * Response).

(** Work that was started and not awaited by the code that started it. *)
Inductive BgTask :=
| BgFetched (req : Request) (o : FetchOutcome)
| BgCachePut (cache : string) (req : Request) (r : Response)
| BgBroadcast.

Record World := mkWorld {
  tick : nat;
  caches : list (string * Cache);
  store : list QueueEntry;
  key_generator : Z;
  tx_count : nat;
  tx_active : list nat;
  trace : list Op;
  background : list BgTask
}.

Record Env := mkEnv {
  location_protocol : Protocol;
  location_hostname : string;
  date_now : nat -> Z;
  network : nat -> string -> FetchOutcome;
  idb_open_ok : nat -> bool;
  idb_add_ok : nat -> bool;
  sync_supported : bool;
  clients : list nat
}.

(** ** The monad of asynchronous functions *)

Definition Async (A : Type) : Type := Env -> World -> Outcome A * World.

Definition ret {A} (a : A) : Async A := fun _ w => (Fulfilled a, w).

Definition throw {A} (err : JsError) : Async A := fun _ w => (Rejected err, w).

Definition bind {A B} (m : Async A) (k : A -> Async B) : Async B :=
  fun e w =>
    match m e w with
    | (Fulfilled a, w') => k a e w'
    | (Rejected err, w') => (Rejected err, w')
    | (NeverSettles, w') => (NeverSettles, w')
    end.

(** [try { m } catch (error) { h error }], where every promise of [m] is
    awaited inside the [try] block. *)
Definition try_catch {A} (m : Async A) (h : JsError -> Async A) : Async A :=
  fun e w =>
    match m e w with
    | (Rejected err, w') => h err e w'
    | r => r
    end.

Declare Scope async_scope.
Delimit Scope async_scope with async.
Notation "x <- c1 ;; c2" := (bind c1 (fun x => c2))
  (at level 61, c1 at next level, right associativity) : async_scope.
Notation "c1 ;; c2" := (bind c1 (fun _ => c2))
  (at level 61, right associativity) : async_scope.
Local Open Scope async_scope.

Definition ask : Async Env := fun e w => (Fulfilled e, w).
Definition get : Async World := fun _ w => (Fulfilled w, w).
Definition modify (f : World -> World) : Async unit := fun _ w => (Fulfilled tt, f w).

(** *** State updates *)

Definition set_tick (n : nat) (w : World) : World :=
  mkWorld n (caches w) (store w) (key_generator w) (tx_count w) (tx_active w)
          (trace w) (background w).
Definition set_caches (c : list (string * Cache)) (w : World) : World :=
  mkWorld (tick w) c (store w) (key_generator w) (tx_count w) (tx_active w)
          (trace w) (background w).
Definition set_store (s : list QueueEntry) (w : World) : World :=
  mkWorld (tick w) (caches w) s (key_generator w) (tx_count w) (tx_active w)
          (trace w) (background w).
Definition set_key_generator (k : Z) (w : World) : World :=
  mkWorld (tick w) (caches w) (store w) k (tx_count w) (tx_active w)
          (trace w) (background w).
Definition set_tx_count (n : nat) (w : World) : World :=
  mkWorld (tick w) (caches w) (store w) (key_generator w) n (tx_active w)
          (trace w) (background w).
Definition set_tx_active (l : list nat) (w : World) : World :=
  mkWorld (tick w) (caches w) (store w) (key_generator w) (tx_count w) l
          (trace w) (background w).
Definition set_trace (t : list Op) (w : World) : World :=
  mkWorld (tick w) (caches w) (store w) (key_generator w) (tx_count w) (tx_active w)
          t (background w).
Definition set_background (b : list BgTask) (w : World) : World :=
  mkWorld (tick w) (caches w) (store w) (key_generator w) (tx_count w) (tx_active w)
          (trace w) b.

(** Every platform call is traced in call order and advances [tick], the index
    at which the environment is consulted. *)
Definition emit (op : Op) : Async unit :=
  modify (fun w => set_trace (trace w ++ [op]) w).

Definition step : Async unit := modify (fun w => set_tick (S (tick w)) w).

Definition console_error (msg : string) : Async unit := emit (OpConsoleError msg).

Definition spawn (t : BgTask) : Async unit :=
  modify (fun w => set_background (background w ++ [t]) w).

(** Awaiting a promise that is not a request of transaction [keep] returns to
    the event loop.  IndexedDB commits a transaction as soon as control is back
    in the event loop while none of its requests is pending; from then on
    every call on its object stores throws [TransactionInactiveError].  Only
    the transaction whose request is being awaited stays usable. *)
Definition event_loop (keep : list nat) : Async unit :=
  modify (fun w => set_tx_active (filter (fun t => existsb (Nat.eqb t) keep) (tx_active w)) w).

Definition Date_now : Async Z :=
  e <- ask ;; w <- get ;; step ;; ret (date_now e (tick w)).

(** *** The network *)

(** The body of a request object is unusable once a consumer took it. *)
Definition unusable (r : Request) : bool :=
  match body r with Some _ => bodyUsed r | None => false end.

(** What a consumer of the body leaves behind in the request object. *)
Definition consumed (r : Request) : Request :=
  mkRequest (method r) (url r) (mode r) (headers r) (credentials r) (body r)
            (match body r with Some _ => true | None => bodyUsed r end).

(** The synchronous part of [fetch]: the call is made and its promise exists;
    the environment decides how it will settle. *)
Definition issue_fetch (u m : string) (b : option (list Byte.byte)) : Async FetchOutcome :=
  e <- ask ;; w <- get ;;
  emit (OpFetch u m b) ;; step ;;
  ret (network e (tick w) u).

(** Awaiting the promise of a fetch. *)
Definition settle (o : FetchOutcome) : Async Response :=
  event_loop [] ;;
  match o with
  | NetResponse r => ret r
  | NetReject => throw NetworkFailure
  | NetNever => fun _ w => (NeverSettles, w)
  end.

(** [await fetch(url, init)].  A GET or HEAD request with a body is refused
    before anything is sent: the promise is born rejected, and awaiting it
    does not go back to the event loop. *)
Definition fetch_init (u m : string) (b : option (list Byte.byte)) : Async Response :=
  match b with
  | Some _ =>
      if (m =? "GET")%string || (m =? "HEAD")%string
      then throw (TypeError "Request with GET/HEAD method cannot have body")
      else o <- issue_fetch u m b ;; settle o
  | None => o <- issue_fetch u m b ;; settle o
  end.

(** [await fetch(request)] on a request object: the request's body stream is
    handed to the fetch when the call is made, whatever the network does
    afterwards (the caller's object is then [consumed request]). *)
Definition fetch_request (request : Request) : Async Response :=
  if unusable request
  then throw (TypeError "Request body is already used")
  else o <- issue_fetch (href (url request)) (method request) (body request) ;; settle o.

(** [request.clone()] throws when the body is unusable. *)
Definition Request_clone (request : Request) : Async Request :=
  if unusable request
  then throw (TypeError "Request body is already used")
  else ret request.

(** [await request.blob()] followed by [await blob.arrayBuffer()]: the bytes of
    the body, none for a request without body. *)
Definition Request_bytes (request : Request) : Async (list Byte.byte) :=
  event_loop [] ;;
  if unusable request
  then throw (TypeError "body stream already read")
  else ret (match body request with Some b => b | None => [] end).

(** *** CacheStorage *)

Definition CACHE_NAME : string := "pwa-cache-v1".
Definition OFFLINE_URL : string := "/offline.html".
Definition DATA_CACHE_NAME : string := "data-cache-v1".

Fixpoint assoc {A} (k : string) (l : list (string * A)) : option A :=
  match l with
  | [] => None
  | (k', v) :: l' => if (k =? k')%string then Some v else assoc k l'
  end.

(** Replace the value at [k], or append a new pair when [k] is absent. *)
Fixpoint assoc_set {A} (k : string) (v : A) (l : list (string * A)) : list (string * A) :=
  match l with
  | [] => [(k, v)]
  | (k', v') :: l' =>
      if (k =? k')%string then (k, v) :: l' else (k', v') :: assoc_set k v l'
  end.

(** [caches.match]: the first cache, in creation order, that holds a response
    for the URL. *)
Fixpoint match_all (cs : list (string * Cache)) (u : string) : option Response :=
  match cs with
  | [] => None
  | (_, c) :: cs' =>
      match assoc u c with
      | Some r => Some r
      | None => match_all cs' u
      end
  end.

(** [await caches.match(request)].  The Cache API matches GET requests only. *)
Definition caches_match (m u : string) : Async (option Response) :=
  event_loop [] ;; step ;;
  w <- get ;;
  ret (if (m =? "GET")%string then match_all (caches w) u else None).

(** [await caches.open(name)]: the cache is created, empty, when there is none
    of that name. *)
Definition caches_open (name : string) : Async unit :=
  event_loop [] ;; step ;;
  modify (fun w =>
    match assoc name (caches w) with
    | Some _ => w
    | None => set_caches (caches w ++ [(name, [])]) w
    end).

(** [cache.put(request, response)] on the cache opened under [name]: it
    rejects for a request that is not a GET, for a partial (206) response and
    for a response with [Vary: *], and replaces a response stored before. *)
Definition cache_put (name : string) (request : Request) (r : Response) : Async unit :=
  event_loop [] ;; step ;;
  if negb (method request =? "GET")%string
  then throw (TypeError "Request method is unsupported")
  else if status r =? 206
  then throw (TypeError "Partial response (status code 206) is unsupported")
  else if vary_star r
  then throw (TypeError "Vary header contains *")
  else
    modify (fun w =>
      let c := match assoc name (caches w) with Some c => c | None => [] end in
      set_caches (assoc_set name (assoc_set (href (url request)) r c) (caches w)) w).

Definition HOSTNAME_WHITELIST (e : Env) : list string :=
  [ location_hostname e; "fonts.gstatic.com"; "fonts.googleapis.com"; "cdn.jsdelivr.net" ].

Definition includes (l : list string) (s : string) : bool :=
  existsb (String.eqb s) l.

(** The decimal rendering of a number in a string concatenation. *)
Definition Number_toString (n : Z) : string := NilZero.string_of_int (Z.to_int n).

(** ** [getFixedUrl] *)
Definition getFixedUrl (req : Request) : Async string :=
  now <- Date_now ;;
  e <- ask ;;
  let url0 := url req in
  let url1 := mkURL (location_protocol e) (hostname url0) (pathname url0) (search url0) in
  let url2 :=
    if (hostname url1 =? location_hostname e)%string
    then mkURL (protocol url1) (hostname url1) (pathname url1)
               (search url1 ++ (if (search url1 =? EmptyString)%string then "?" else "&")
                            ++ "cache-bust=" ++ Number_toString now)
    else url1 in
  ret (href url2).

(** ** [fetchAndUpdateCache] *)

(** The call itself: the fixed URL is computed and the fetch is issued. *)
Definition start_fetchAndUpdateCache (request : Request) : Async FetchOutcome :=
  fixedUrl <- getFixedUrl request ;;
  issue_fetch fixedUrl "GET" None.

(** The [then] callback ([response] is an object, so [!response] is false).
    [caches.open(CACHE_NAME).then(cache => cache.put(...))] is started and not
    awaited. *)
Definition fetched_then (request : Request) (response : Response) : Async Response :=
  if negb (status response =? 200) || negb (rtype response =? "basic")%string
  then ret response
  else spawn (BgCachePut CACHE_NAME request response) ;; ret response.

Definition fetchAndUpdateCache (request : Request) : Async Response :=
  o <- start_fetchAndUpdateCache request ;;
  response <- settle o ;;
  fetched_then request response.

(** *** IndexedDB: the [sync-queue] object store of [sync-store] *)

Definition STORE_NAME : string := "sync-queue".

(** [await openSyncDatabase()]: the environment decides whether the open
    request succeeds; on failure the promise is rejected. *)
Definition openSyncDatabase : Async unit :=
  e <- ask ;; w <- get ;;
  event_loop [] ;; step ;;
  if idb_open_ok e (tick w)
  then ret tt
  else throw (StoreError "Error opening sync database").

(** [db.transaction(STORE_NAME, 'readwrite')]: a new transaction, active while
    the code that created it runs. *)
Definition db_transaction : Async nat :=
  w <- get ;;
  let t := tx_count w in
  modify (fun w => set_tx_active (t :: tx_active w) (set_tx_count (S t) w)) ;;
  emit (OpTransaction t) ;;
  ret t.

Definition is_active (t : nat) (w : World) : bool := existsb (Nat.eqb t) (tx_active w).

(** [await] of the promise around [store.getAll()], on the store of
    transaction [t]. *)
Definition store_getAll (t : nat) : Async (list QueueEntry) :=
  emit (OpGetAll t) ;;
  w <- get ;;
  if is_active t w
  then event_loop [t] ;; step ;; w' <- get ;; ret (store w')
  else throw TransactionInactiveError.

(** [await] of the promise around [store.delete(key)].  Deleting a key that is
    not in the store succeeds. *)
Definition store_delete (t : nat) (k : Z) : Async unit :=
  emit (OpDelete t k) ;;
  w <- get ;;
  if is_active t w
  then event_loop [t] ;; step ;;
       modify (fun w => set_store (filter (fun x => negb (id x =? k)) (store w)) w)
  else throw TransactionInactiveError.

(** The promise around [store.add(value)]: the key generator gives the key
    (the store has [keyPath: 'id', autoIncrement: true]); the environment
    decides whether the request succeeds. *)
Definition store_add (t : nat) (d : RequestData) : Async Z :=
  emit (OpAdd t d) ;;
  e <- ask ;; w <- get ;;
  if is_active t w
  then event_loop [t] ;; step ;;
       if idb_add_ok e (tick w)
       then let k := key_generator w in
            modify (fun w => set_key_generator (k + 1) (set_store (store w ++ [stored k d]) w)) ;;
            ret k
       else throw (StoreError "add request failed")
  else throw TransactionInactiveError.

(** ** [addToSyncQueue] *)

(** The statements of the [try] block up to [await openSyncDatabase()]: each
    promise here is awaited, so the [catch] clause sees its rejection. *)
Definition prepare_requestData (request : Request) : Async RequestData :=
  now <- Date_now ;;
  let requestData :=
    mkRequestData (href (url request)) (method request) (headers request)
                  (credentials request) now None in
  requestData <-
    (if includes ["POST"; "PUT"] (method request)
     then bytes <- Request_bytes request ;;
          ret (mkRequestData (rd_url requestData) (rd_method requestData)
                             (rd_headers requestData) (rd_credentials requestData)
                             (rd_timestamp requestData) (Some bytes))
     else ret requestData) ;;
  openSyncDatabase ;;
  ret requestData.

(** The promise built by [new Promise(...)] at the end of the [try] block. *)
Definition insert_promise (requestData : RequestData) : Async unit :=
  transaction <- db_transaction ;;
  store_add transaction requestData ;;
  e <- ask ;;
  (if sync_supported e then emit (OpSyncRegister "sync-queue") else ret tt).

(** [return new Promise(...)] leaves the [try] block without awaiting the
    promise: the block has ended when the promise settles, so a rejection of it
    is the rejection of [addToSyncQueue] itself and never reaches the [catch]
    clause. *)
Definition addToSyncQueue (request : Request) : Async unit :=
  prepared <-
    try_catch (requestData <- prepare_requestData request ;; ret (Some requestData))
              (fun _ => console_error "Failed to queue request for sync" ;; ret None) ;;
  match prepared with
  | Some requestData => insert_promise requestData
  | None => ret tt
  end.

(** ** [handleAPIRequest] *)

Definition json_headers : Headers := [("Content-Type", "application/json")].

Definition queued_response : Response :=
  new_Response
    (JsonBody (JObj [("message", JStr "Request queued for sync"); ("queued", JBool true)]))
    None json_headers.

Definition unavailable_response : Response :=
  new_Response (JsonBody (JObj [("error", JStr "Network unavailable")])) (Some 503) json_headers.

Definition handleAPIRequest (request : Request) : Async Response :=
  cachedResponse <- caches_match (method request) (href (url request)) ;;
  try_catch
    (networkResponse <- fetch_request request ;;
     (if ok networkResponse
      then caches_open DATA_CACHE_NAME ;;
           cache_put DATA_CACHE_NAME request networkResponse
      else ret tt) ;;
     ret networkResponse)
    (fun _ =>
       let request := consumed request in
       match cachedResponse with
       | Some r => ret r
       | None =>
           if (method request =? "POST")%string || (method request =? "PUT")%string
           then clone <- Request_clone request ;;
                addToSyncQueue clone ;;
                ret queued_response
           else ret unavailable_response
       end).

(** ** The [fetch] listener *)

(** What the listener does with the event: it calls [event.respondWith] with a
    promise, or it returns without intervening. *)
Inductive Interception :=
| NotIntercepted
| RespondWith (p : Async (option Response)).

Definition offline_key (e : Env) : string :=
  protocol_string (location_protocol e) ++ "//" ++ location_hostname e ++ OFFLINE_URL.

(** The promise chain given to [respondWith] for a request that is not an API
    request.  It settles with a response, or with [undefined] ([None]) when
    the offline page is not cached. *)
Definition respond_static (request : Request) : Async (option Response) :=
  cachedResponse <- caches_match (method request) (href (url request)) ;;
  match cachedResponse with
  | Some r =>
      o <- start_fetchAndUpdateCache request ;;
      spawn (BgFetched request o) ;;
      ret (Some r)
  | None =>
      try_catch
        (response <- fetchAndUpdateCache request ;; ret (Some response))
        (fun _ =>
           if (mode request =? "navigate")%string
           then e <- ask ;; caches_match "GET" (offline_key e)
           else ret (Some (new_Response (TextBody "Offline content unavailable") None [])))
  end.

Definition fetch_listener (e : Env) (request : Request) : Interception :=
  let isAPIRequest := String.prefix "/api" (pathname (url request)) in
  if isAPIRequest
  then RespondWith (response <- handleAPIRequest request ;; ret (Some response))
  else if includes (HOSTNAME_WHITELIST e) (hostname (url request))
  then RespondWith (respond_static request)
  else NotIntercepted.

(** ** [processSyncQueue] *)

(** The body of the [for ... of] loop, for one entry read by [getAll].
    [store] in the source is the object store of the one transaction [t]
    opened before the loop. *)
Definition replay_one (t : nat) (requestData : QueueEntry) : Async unit :=
  try_catch
    (if (entry_url requestData =? "/api/mock-endpoint")%string
     then store_delete t (id requestData)
     else
       response <- fetch_init (entry_url requestData) (entry_method requestData)
                              (entry_body requestData) ;;
       if ok response
       then store_delete t (id requestData)
       else ret tt)
    (fun _ => console_error "[SW] Error processing queued request").

Fixpoint replay (t : nat) (requests : list QueueEntry) : Async unit :=
  match requests with
  | [] => ret tt
  | requestData :: rest => replay_one t requestData ;; replay t rest
  end.

(** [db] is an object, so [!db] is false; [db.close()] changes nothing that is
    modelled here. *)
Definition processSyncQueue : Async unit :=
  try_catch
    (openSyncDatabase ;;
     transaction <- db_transaction ;;
     requests <- store_getAll transaction ;;
     match requests with
     | [] => ret tt
     | _ => replay transaction requests
     end)
    (fun _ => console_error "[SW] Failed to process sync queue").

(** ** The [sync] listener *)

Fixpoint post_to_all (cs : list nat) : Async unit :=
  match cs with
  | [] => ret tt
  | client :: cs' =>
      now <- Date_now ;;
      emit (OpPostMessage client (mkMessage "SYNC_COMPLETED" now)) ;;
      post_to_all cs'
  end.

(** [self.clients.matchAll().then(clients => clients.forEach(...))].  The
    timestamp of a message stands for the ISO-8601 text of that instant. *)
Definition broadcast : Async unit :=
  e <- ask ;; post_to_all (clients e).

(** The promise given to [event.waitUntil].  The [then] callback starts the
    broadcast and does not return its promise, so the listener's promise is
    fulfilled before the messages are posted. *)
Definition sync_listener (tag : string) : Async unit :=
  if (tag =? "sync-queue")%string
  then try_catch (processSyncQueue ;; spawn BgBroadcast)
                 (fun _ => console_error "[SW] Sync error:")
  else ret tt.

(** ** Tasks nobody awaits *)

(** What becomes of a task that was started without being awaited: the [then]
    callback of the refetch, [caches.open(...).then(cache => cache.put(...))],
    and the broadcast of the [sync] listener. *)
Definition run_task (t : BgTask) : Async unit :=
  match t with
  | BgFetched req o => response <- settle o ;; fetched_then req response ;; ret tt
  | BgCachePut name req r => caches_open name ;; cache_put name req r
  | BgBroadcast => broadcast
  end.

(** Run the oldest task to its end; its outcome reaches nobody. *)
Definition run_next (e : Env) (w : World) : World :=
  match background w with
  | [] => w
  | t :: rest => snd (run_task t e (set_background rest w))
  end.

Fixpoint run_background (n : nat) (e : Env) (w : World) : World :=
  match n with
  | O => w
  | S n' => run_background n' e (run_next e w)
  end.

(** ** The [push] listener *)

(** [event.data] when it is not null: its text, and what [json()] returns,
    [None] when parsing throws. *)
Record PushMessageData := mkPush {
  text : string;
  json : option JValue
}.

(** A JavaScript value read from a property: [None] is [undefined]. *)
Definition JsValue := option JValue.

Fixpoint last_assoc (k : string) (l : list (string * JValue)) : JsValue :=
  match l with
  | [] => None
  | (k', v) :: l' =>
      match last_assoc k l' with
      | Some v' => Some v'
      | None => if (k =? k')%string then Some v else None
      end
  end.

(** Reading a property [k] that no prototype defines: only an object can have
    it (the last of duplicate keys, as [JSON.parse] keeps it); reading it from
    [null] throws. *)
Definition get_property (v : JValue) (k : string) : Outcome JsValue :=
  match v with
  | JNull => Rejected (TypeError "Cannot read properties of null")
  | JObj fields => Fulfilled (last_assoc k fields)
  | _ => Fulfilled None
  end.

Definition truthy (v : JsValue) : bool :=
  match v with
  | None => false
  | Some JNull => false
  | Some (JBool b) => b
  | Some (JNum q) => negb (Qeq_bool q 0)
  | Some (JStr s) => negb (s =? EmptyString)%string
  | Some (JArr _) => true
  | Some (JObj _) => true
  end.

(** [v || d] with a string default. *)
Definition or_default (v : JsValue) (d : string) : JValue :=
  match v with
  | Some x => if truthy v then x else JStr d
  | None => JStr d
  end.

Record NotificationOptions := mkOptions {
  opt_body : JValue;
  opt_icon : JValue;
  opt_badge : string;
  opt_vibrate : list Z;
  opt_data_url : JValue;
  opt_data_dateOfArrival : Z;
  opt_data_primaryKey : Z;
  opt_actions : list (string * string)
}.

(** The call [self.registration.showNotification(title, options)]. *)
Record ShowNotification := mkShow {
  shown_title : JsValue;
  shown_options : NotificationOptions
}.

(** The [try]/[catch] around [event.data.json()]: [event.data] may be null, and
    then the call throws like a failed parse does. *)
Definition notificationData (data : option PushMessageData) : JValue :=
  match data with
  | Some d =>
      match json d with
      | Some v => v
      | None => JObj [("title", JStr "New Notification"); ("body", JStr (text d));
                      ("icon", JStr "/IP-LAB3/coder.avif")]
      end
  | None => JObj [("title", JStr "New Notification"); ("body", JStr "No content");
                  ("icon", JStr "/IP-LAB3/coder.avif")]
  end.

Definition and_then {A B} (o : Outcome A) (k : A -> Outcome B) : Outcome B :=
  match o with
  | Fulfilled a => k a
  | Rejected e => Rejected e
  | NeverSettles => NeverSettles
  end.

(** The listener: the notification it shows, or the error it throws. *)
Definition push_listener (data : option PushMessageData) (now : Z) : Outcome ShowNotification :=
  let nd := notificationData data in
  and_then (get_property nd "body") (fun b =>
  and_then (get_property nd "icon") (fun i =>
  and_then (get_property nd "url") (fun u =>
  let options :=
    mkOptions (or_default b "No details available")
              (or_default i "/IP-LAB3/coder.avif")
              "/IP-LAB3/coder.avif" [100; 50; 100]
              (or_default u "/IP-LAB3/index.html") now 1
              [("explore", "View"); ("close", "Close")] in
  and_then (get_property nd "title") (fun title =>
  Fulfilled (mkShow title options))))).

(** ** The [install] listener *)

Definition PRECACHE_ASSETS : list string :=
  [ "/IP-LAB3/index.html"; "/IP-LAB3/offline.html"; "/IP-LAB3/manifest.json";
    "/IP-LAB3/coder.avif" ].

(** A path handed to the Cache API is resolved against the worker's own
    location. *)
Definition resolve (e : Env) (path : string) : string :=
  protocol_string (location_protocol e) ++ "//" ++ location_hostname e ++ path.

(** The calls a listener makes on the worker's life cycle. *)
Inductive LifecycleCall :=
| SkipWaiting
| ClientsClaim.

(** [cache.addAll] issues a GET for every URL. *)
Fixpoint fetch_all (us : list string) : Async (list FetchOutcome) :=
  match us with
  | [] => ret []
  | u :: us' =>
      o <- issue_fetch u "GET" None ;;
      os <- fetch_all us' ;;
      ret (o :: os)
  end.

(** [cache.addAll] rejects for a fetch that fails and for an answer whose
    status is not in 200-299 or is 206, or that has [Vary: *]. *)
Definition refused_by_addAll (o : FetchOutcome) : bool :=
  match o with
  | NetResponse r => negb (ok r) || (status r =? 206) || vary_star r
  | NetReject => true
  | NetNever => false
  end.

Definition unsettled (o : FetchOutcome) : bool :=
  match o with NetNever => true | _ => false end.

(** The puts of [cache.addAll], in the order of the URLs. *)
Fixpoint put_all (c : Cache) (us : list string) (os : list FetchOutcome) : Cache :=
  match us, os with
  | u :: us', NetResponse r :: os' => put_all (assoc_set u r c) us' os'
  | _ :: us', _ :: os' => put_all c us' os'
  | _, _ => c
  end.

(** [await cache.addAll(urls)] on the cache [name]: all or nothing.  One
    refused fetch rejects the promise and nothing is stored; otherwise the
    promise waits for every answer and then stores them all. *)
Definition cache_addAll (name : string) (us : list string) : Async unit :=
  os <- fetch_all us ;;
  event_loop [] ;;
  if existsb refused_by_addAll os
  then throw (TypeError "Request failed")
  else if existsb unsettled os
  then fun _ w => (NeverSettles, w)
  else
    modify (fun w =>
      let c := match assoc name (caches w) with Some c => c | None => [] end in
      set_caches (assoc_set name (put_all c us os) (caches w)) w).

(** The promise given to [event.waitUntil] by the [install] listener. *)
Definition precache : Async unit :=
  try_catch
    (caches_open CACHE_NAME ;;
     e <- ask ;;
     cache_addAll CACHE_NAME (map (resolve e) PRECACHE_ASSETS))
    (fun _ => console_error "Precaching failed:").

(** The listener: the promise it hands over, and [self.skipWaiting()], which
    it calls at once whatever becomes of the promise. *)
Definition install_listener (e : Env) (w : World)
  : (Outcome unit * World) * list LifecycleCall :=
  (precache e w, [SkipWaiting]).

(** ** The [activate] listener *)

(** The promise given to [event.waitUntil]: every cache whose name is neither
    [CACHE_NAME] nor [DATA_CACHE_NAME] is deleted, then the worker claims the
    open pages. *)
Definition activate_listener : Async (list LifecycleCall) :=
  event_loop [] ;; step ;;
  modify (fun w =>
    set_caches
      (filter (fun c => negb (negb (fst c =? CACHE_NAME)%string
                              && negb (fst c =? DATA_CACHE_NAME)%string))
              (caches w)) w) ;;
  ret [ClientsClaim].

(** ** The [notificationclick] listener *)

(** A page as [clients.matchAll({ type: 'window' })] lists it;
    [client_can_focus] is ['focus' in client]. *)
Record WindowClient := mkClient {
  client_id : nat;
  client_url : string;
  client_can_focus : bool
}.

Inductive ClickCall :=
| NotificationClose
| ClientFocus (c : nat)
| OpenWindow (target : JsValue).

(** [client.url === targetURL]: a string is strictly equal to a string of the
    same text only. *)
Definition strictly_equal (s : string) (v : JsValue) : bool :=
  match v with
  | Some (JStr u) => (s =? u)%string
  | _ => false
  end.

(** The [for ... of] loop over the pages: the first page at the target URL
    that can be focused. *)
Fixpoint first_at (targetURL : JsValue) (windowClients : list WindowClient) : option nat :=
  match windowClients with
  | [] => None
  | client :: rest =>
      if strictly_equal (client_url client) targetURL && client_can_focus client
      then Some (client_id client)
      else first_at targetURL rest
  end.

(** The listener, given [event.action], [event.notification.data], the open
    pages and whether [self.clients.openWindow] exists: the calls it makes, in
    order, and the error it throws if it does. *)
Definition notificationclick_listener (action : string) (data : JValue)
    (windowClients : list WindowClient) (openWindow : bool)
  : list ClickCall * option JsError :=
  match get_property data "url" with
  | Rejected err => ([NotificationClose], Some err)
  | NeverSettles => ([NotificationClose], None)
  | Fulfilled targetURL =>
      if (action =? "close")%string
      then ([NotificationClose], None)
      else
        match first_at targetURL windowClients with
        | Some c => ([NotificationClose; ClientFocus c], None)
        | None =>
            if openWindow
            then ([NotificationClose; OpenWindow targetURL], None)
            else ([NotificationClose], None)
        end
  end.

(** ** Concrete platforms and requests *)

Module Sample.

(** A platform at [https://example.com] with two open pages, a clock that
    starts at 1000, and the given network and store behaviour. *)
Definition platform (net : FetchOutcome) (open_ok add_ok : bool) : Env :=
  mkEnv Https "example.com" (fun n => 1000 + Z.of_nat n) (fun _ _ => net)
        (fun _ => open_ok) (fun _ => add_ok) true [7%nat; 8%nat].

(** Nothing cached, nothing queued, the key generator at its first key. *)
Definition fresh : World := mkWorld 0 [] [] 1 0 [] [] [].

Definition with_store (s : list QueueEntry) : World :=
  mkWorld 0 [] s (1 + Z.of_nat (List.length s)) 0 [] [] [].

Definition api (m path : string) (b : option (list Byte.byte)) : Request :=
  mkRequest m (mkURL Https "example.com" path EmptyString) "cors"
            [("content-type", "application/json")] "same-origin" b false.

Definition page (host path query md : string) : Request :=
  mkRequest "GET" (mkURL Https host path query) md [] "same-origin" None false.

Definition ok_200 : Response := mkResponse 200 "basic" [] (TextBody "done").

(** The bytes of the text [{"x":1}]. *)
Definition x_is_1 : list Byte.byte :=
  [Byte.x7b; Byte.x22; Byte.x78; Byte.x22; Byte.x3a; Byte.x31; Byte.x7d].

Definition entry (k : Z) (u : string) : QueueEntry :=
  mkEntry k u "POST" [("content-type", "application/json")] "same-origin" 990
          (Some x_is_1) None.

End Sample.

(** ** Notions used to state the properties *)

(** The entry takes the mock branch of the replay loop. *)
Definition is_mock (x : QueueEntry) : bool :=
  (entry_url x =? "/api/mock-endpoint")%string.

(** [fetch] refuses the entry's request before sending anything. *)
Definition refused (x : QueueEntry) : bool :=
  match entry_body x with
  | Some _ => (entry_method x =? "GET")%string || (entry_method x =? "HEAD")%string
  | None => false
  end.

(** The store after the loop has run over [l] with its transaction still
    active at the start: mock entries are deleted up to the first entry that
    is sent to the network. *)
Fixpoint replay_store (l s : list QueueEntry) : list QueueEntry :=
  match l with
  | [] => s
  | x :: l' =>
      if is_mock x
      then replay_store l' (filter (fun y => negb (id y =? id x)) s)
      else if refused x then replay_store l' s else s
  end.

(** No mock entry comes before the first entry that is sent to the network. *)
Fixpoint quiet (l : list QueueEntry) : bool :=
  match l with
  | [] => true
  | x :: l' => if is_mock x then false else if refused x then quiet l' else true
  end.

(** The messages posted to pages, in order. *)
Fixpoint posted (tr : list Op) : list (nat * Message) :=
  match tr with
  | [] => []
  | OpPostMessage c m :: tr' => (c, m) :: posted tr'
  | _ :: tr' => posted tr'
  end.

(** The transactions opened, in order. *)
Fixpoint opened (tr : list Op) : list nat :=
  match tr with
  | [] => []
  | OpTransaction t :: tr' => t :: opened tr'
  | _ :: tr' => opened tr'
  end.

(** The completion messages of one broadcast that starts at tick [n]: one per
    page, each stamped with the time it is posted at. *)
Fixpoint completion_messages (e : Env) (n : nat) (cs : list nat) : list (nat * Message) :=
  match cs with
  | [] => []
  | c :: cs' => (c, mkMessage "SYNC_COMPLETED" (date_now e n)) :: completion_messages e (S n) cs'
  end.

(** The entry does nothing in the loop: it is not a mock entry and its request
    is refused by [fetch]. *)
Definition inert (x : QueueEntry) : Prop := is_mock x = false /\ refused x = true.

(** The entry is stored under the absolute URL of a request, as
    [addToSyncQueue] writes every entry ([url: request.url]). *)
Definition written_by_worker (x : QueueEntry) : Prop :=
  exists u : URL, entry_url x = href u.

(** The network never leaves a fetch unsettled. *)
Definition settles (e : Env) : Prop := forall n u, network e n u <> NetNever.

(** The URLs of the fetches issued, in order. *)
Fixpoint fetched (tr : list Op) : list string :=
  match tr with
  | [] => []
  | OpFetch u _ _ :: tr' => u :: fetched tr'
  | _ :: tr' => fetched tr'
  end.

(** The tags of the sync registrations made, in order. *)
Fixpoint registered (tr : list Op) : list string :=
  match tr with
  | [] => []
  | OpSyncRegister tag :: tr' => tag :: registered tr'
  | _ :: tr' => registered tr'
  end.

(** The keys of the store are unique and below the next key of the key
    generator. *)
Definition well_keyed (w : World) : Prop :=
  NoDup (map id (store w)) /\ Forall (fun x => id x < key_generator w) (store w).

(** The outcomes of the fetches that [fetch_all] issues, the first at tick
    [n]. *)
Fixpoint outcomes (e : Env) (n : nat) (us : list string) : list FetchOutcome :=
  match us with
  | [] => []
  | u :: us' => network e n u :: outcomes e (S n) us'
  end.

(** The absolute URLs of the precached assets. *)
Definition precache_urls (e : Env) : list string := map (resolve e) PRECACHE_ASSETS.

(** More concrete inputs. *)
Module Fixture.

(** A world whose caches are the given ones. *)
Definition with_caches (cs : list (string * Cache)) : World :=
  mkWorld 0 cs [] 1 0 [] [] [].

(** A platform like [Sample.platform] whose network answers by URL. *)
Definition platform_by_url (net : string -> FetchOutcome) : Env :=
  mkEnv Https "example.com" (fun n => 1000 + Z.of_nat n) (fun _ u => net u)
        (fun _ => true) (fun _ => true) true [7%nat; 8%nat].

Definition shell : Response := mkResponse 200 "basic" [] (TextBody "shell").
Definition missing : Response := mkResponse 404 "basic" [] (TextBody "missing").

Definition tab (k : nat) (u : string) : WindowClient := mkClient k u true.

End Fixture.

(** * Properties *)

(** ** Running the monad *)

Ltac unfold_async :=
  unfold try_catch, bind, store_delete, store_getAll, store_add, db_transaction,
    openSyncDatabase, fetch_init, fetch_request, issue_fetch, settle, caches_match,
    caches_open, cache_put, Date_now, console_error, spawn, emit, event_loop, step,
    modify, get, ask, ret, throw, is_active in *.

Ltac run := cbn -[String.eqb Nat.eqb Z.eqb href includes String.prefix vary_star].

Lemma filter_none {A} (l : list A) : filter (fun _ => false) l = [].
Proof. induction l; simpl; auto. Qed.

Lemma existsb_filter_self (t : nat) (l : list nat) :
  existsb (Nat.eqb t) (filter (fun t' => existsb (Nat.eqb t') [t]) l)
  = existsb (Nat.eqb t) l.
Proof.
  induction l as [|a l IH]; simpl; auto.
  rewrite orb_false_r. destruct (Nat.eqb a t) eqn:E; simpl.
  - rewrite Nat.eqb_sym, E. reflexivity.
  - rewrite Nat.eqb_sym, E. simpl. exact IH.
Qed.

(** ** One iteration of the replay loop *)

Section ReplayOne.

Variables (t : nat) (x : QueueEntry) (e : Env) (w : World).

Let w' := snd (replay_one t x e w).

(** An iteration is fulfilled unless its fetch never settles: every error
    is caught inside the loop body. *)
Lemma replay_one_outcome :
  fst (replay_one t x e w) = Fulfilled tt \/ fst (replay_one t x e w) = NeverSettles.
Proof.
  unfold replay_one. unfold_async. run.
  destruct (entry_url x =? "/api/mock-endpoint")%string; run.
  - destruct (existsb (Nat.eqb t) (tx_active w)); run; auto.
  - destruct (entry_body x);
      [destruct ((entry_method x =? "GET")%string || (entry_method x =? "HEAD")%string)|];
      run; auto;
      destruct (network e (tick w) (entry_url x)) as [r| |]; run; auto;
      destruct (ok r); run; auto; rewrite filter_none; run; auto.
Qed.

Lemma replay_one_settles :
  settles e -> fst (replay_one t x e w) = Fulfilled tt.
Proof.
  intros Hs. unfold replay_one. unfold_async. run.
  destruct (entry_url x =? "/api/mock-endpoint")%string; run.
  - destruct (existsb (Nat.eqb t) (tx_active w)); run; auto.
  - destruct (entry_body x);
      [destruct ((entry_method x =? "GET")%string || (entry_method x =? "HEAD")%string)|];
      run; auto;
      (destruct (network e (tick w) (entry_url x)) as [r| |] eqn:E;
       [ | | exfalso; exact (Hs _ _ E)]); run; auto;
      destruct (ok r); run; auto; rewrite filter_none; run; auto.
Qed.

(** Once the transaction has committed, an iteration deletes nothing. *)
Lemma replay_one_inactive :
  is_active t w = false ->
  store w' = store w /\ is_active t w' = false.
Proof.
  intros H. subst w'. unfold replay_one. unfold_async. run.
  destruct (entry_url x =? "/api/mock-endpoint")%string; run.
  - rewrite H. run. auto.
  - destruct (entry_body x);
      [destruct ((entry_method x =? "GET")%string || (entry_method x =? "HEAD")%string)|];
      run; auto;
      destruct (network e (tick w) (entry_url x)) as [r| |]; run;
      rewrite ?filter_none; auto;
      destruct (ok r); run; rewrite ?filter_none; run; auto.
Qed.

(** A mock entry met while the transaction is active is deleted, and the
    transaction stays active. *)
Lemma replay_one_mock :
  is_active t w = true -> is_mock x = true ->
  fst (replay_one t x e w) = Fulfilled tt /\
  store w' = filter (fun y => negb (id y =? id x)) (store w) /\
  is_active t w' = true /\
  trace w' = (trace w ++ [OpDelete t (id x)])%list.
Proof.
  intros H Hm. subst w'. unfold is_mock in Hm. unfold replay_one. unfold_async. run.
  rewrite Hm. run. rewrite H. run.
  rewrite existsb_filter_self. auto.
Qed.

(** An entry whose request [fetch] refuses changes nothing. *)
Lemma replay_one_refused :
  is_mock x = false -> refused x = true ->
  fst (replay_one t x e w) = Fulfilled tt /\
  store w' = store w /\ is_active t w' = is_active t w.
Proof.
  intros Hm Hr. subst w'. unfold is_mock in Hm. unfold refused in Hr.
  unfold replay_one. unfold_async. run.
  rewrite Hm. destruct (entry_body x); [|discriminate].
  rewrite Hr. run. auto.
Qed.

(** An entry that is sent to the network stays in the store whatever the
    answer is, and the transaction is gone afterwards. *)
Lemma replay_one_network :
  is_mock x = false -> refused x = false ->
  store w' = store w /\ is_active t w' = false /\
  exists ops, trace w' =
    (trace w ++ OpFetch (entry_url x) (entry_method x) (entry_body x) :: ops)%list.
Proof.
  intros Hm Hr. subst w'. unfold is_mock in Hm. unfold refused in Hr.
  unfold replay_one. unfold_async. run.
  rewrite Hm.
  destruct (entry_body x); [rewrite Hr|]; run;
    destruct (network e (tick w) (entry_url x)) as [r| |]; run;
    rewrite ?filter_none; try (destruct (ok r); run; rewrite ?filter_none; run);
    repeat split; auto; rewrite <- ?app_assoc; eexists; reflexivity.
Qed.

End ReplayOne.

(** ** The replay loop *)

Lemma replay_cons t x l e w :
  replay t (x :: l) e w =
  match fst (replay_one t x e w) with
  | Fulfilled _ => replay t l e (snd (replay_one t x e w))
  | Rejected err => (Rejected err, snd (replay_one t x e w))
  | NeverSettles => (NeverSettles, snd (replay_one t x e w))
  end.
Proof.
  simpl. unfold bind at 1. destruct (replay_one t x e w) as [[a|err|] w1]; reflexivity.
Qed.

Lemma replay_settles t l e :
  settles e -> forall w, fst (replay t l e w) = Fulfilled tt.
Proof.
  intros Hs. induction l as [|x l IH]; intros w; [reflexivity|].
  rewrite replay_cons, (replay_one_settles t x w Hs). apply IH.
Qed.

(** After the transaction has committed the loop deletes nothing. *)
Lemma replay_inactive t l e :
  forall w, is_active t w = false -> store (snd (replay t l e w)) = store w.
Proof.
  induction l as [|x l IH]; intros w H; [reflexivity|].
  rewrite replay_cons.
  destruct (replay_one_inactive t x e w H) as [Hs Ha].
  destruct (replay_one_outcome t x e w) as [-> | ->]; simpl; auto.
  rewrite IH; auto.
Qed.

(** With the transaction active at the start, the loop leaves [replay_store]. *)
Lemma replay_active t l e :
  forall w, is_active t w = true ->
  store (snd (replay t l e w)) = replay_store l (store w).
Proof.
  induction l as [|x l IH]; intros w H; [reflexivity|].
  rewrite replay_cons. simpl.
  destruct (is_mock x) eqn:Hm.
  - destruct (replay_one_mock t x e w H Hm) as (-> & Hs & Ha & _).
    rewrite IH, Hs; auto.
  - destruct (refused x) eqn:Hr.
    + destruct (replay_one_refused t x e w Hm Hr) as (-> & Hs & Ha).
      rewrite IH, Hs; auto. congruence.
    + destruct (replay_one_network t x e w Hm Hr) as (Hs & Ha & _).
      destruct (replay_one_outcome t x e w) as [-> | ->]; simpl; auto.
      rewrite replay_inactive; auto.
Qed.

(** A quiet list is replayed without any deletion. *)
Lemma replay_quiet t l e :
  quiet l = true -> forall w, store (snd (replay t l e w)) = store w.
Proof.
  induction l as [|x l IH]; intros Hq w; [reflexivity|].
  simpl in Hq. rewrite replay_cons.
  destruct (is_mock x) eqn:Hm; [discriminate|].
  destruct (refused x) eqn:Hr.
  - destruct (replay_one_refused t x e w Hm Hr) as (-> & Hs & _).
    rewrite IH; auto.
  - destruct (replay_one_network t x e w Hm Hr) as (Hs & Ha & _).
    destruct (replay_one_outcome t x e w) as [-> | ->]; simpl; auto.
    rewrite replay_inactive; auto.
Qed.

(** The loop opens no transaction and posts no message. *)
Lemma replay_one_trace t x e w :
  opened (trace (snd (replay_one t x e w))) = opened (trace w) /\
  posted (trace (snd (replay_one t x e w))) = posted (trace w).
Proof.
  assert (Ho : forall tr ops, opened ops = [] -> opened (tr ++ ops) = opened tr).
  { induction tr as [|[] tr IH]; simpl; intros; rewrite ?app_nil_r; auto; rewrite IH; auto. }
  assert (Hp : forall tr ops, posted ops = [] -> posted (tr ++ ops) = posted tr).
  { induction tr as [|[] tr IH]; simpl; intros; rewrite ?app_nil_r; auto; rewrite IH; auto. }
  unfold replay_one. unfold_async. run.
  destruct (entry_url x =? "/api/mock-endpoint")%string; run.
  - destruct (existsb (Nat.eqb t) (tx_active w)); run;
      rewrite <- ?app_assoc; rewrite Ho, Hp; auto.
  - destruct (entry_body x);
      [destruct ((entry_method x =? "GET")%string || (entry_method x =? "HEAD")%string)|];
      run; rewrite <- ?app_assoc; rewrite ?Ho, ?Hp; auto;
      destruct (network e (tick w) (entry_url x)) as [r| |]; run;
      rewrite <- ?app_assoc; rewrite ?Ho, ?Hp; auto;
      destruct (ok r); run; rewrite ?filter_none; run;
      rewrite <- ?app_assoc; rewrite ?Ho, ?Hp; auto.
Qed.

Lemma replay_trace t l e :
  forall w, opened (trace (snd (replay t l e w))) = opened (trace w) /\
            posted (trace (snd (replay t l e w))) = posted (trace w).
Proof.
  induction l as [|x l IH]; intros w; [auto|].
  rewrite replay_cons.
  destruct (replay_one_trace t x e w) as [Ho Hp].
  destruct (replay_one_outcome t x e w) as [-> | ->]; simpl; auto.
  destruct (IH (snd (replay_one t x e w))) as [-> ->]. auto.
Qed.

Lemma replay_outcome t l e :
  forall w, fst (replay t l e w) = Fulfilled tt \/ fst (replay t l e w) = NeverSettles.
Proof.
  induction l as [|x l IH]; intros w; [left; reflexivity|].
  rewrite replay_cons.
  destruct (replay_one_outcome t x e w) as [-> | ->]; simpl; auto.
Qed.

Lemma try_catch_transparent {A} (m : Async A) h e w :
  (forall err, fst (m e w) <> Rejected err) -> try_catch m h e w = m e w.
Proof.
  intros H. unfold try_catch. destruct (m e w) as [[a|err|] w1]; auto.
  exfalso. exact (H err eq_refl).
Qed.

(** ** A replay pass *)

(** When the store opens, the pass reads all entries in one transaction, the
    only one it opens, and runs the loop with that transaction. *)
Lemma processSyncQueue_opens e w :
  idb_open_ok e (tick w) = true ->
  exists wm,
    store wm = store w /\
    is_active (tx_count w) wm = true /\
    trace wm = (trace w ++ [OpTransaction (tx_count w); OpGetAll (tx_count w)])%list /\
    processSyncQueue e w =
      match store w with
      | [] => (Fulfilled tt, wm)
      | _ => replay (tx_count w) (store w) e wm
      end.
Proof.
  intros Ho. unfold processSyncQueue.
  unfold try_catch at 1. unfold bind at 1.
  unfold openSyncDatabase at 1. unfold_async. run. rewrite Ho. run.
  rewrite filter_none. run. rewrite Nat.eqb_refl. run. rewrite Nat.eqb_refl. run.
  eexists. split; [|split; [|split]]; cycle 3.
  - destruct (store w) as [|x l] eqn:Es; [reflexivity|].
    match goal with
    | |- context [replay ?t ?l ?e ?w0] =>
        destruct (replay_outcome t l e w0) as [H | H];
        destruct (replay t l e w0) as [[a|err|] w1]; simpl in H; try discriminate;
        reflexivity
    end.
  - reflexivity.
  - run. rewrite Nat.eqb_refl. reflexivity.
  - run. rewrite <- app_assoc. reflexivity.
Qed.

(** When the store does not open, the pass is abandoned with the store as it
    was. *)
Lemma processSyncQueue_open_fails e w :
  idb_open_ok e (tick w) = false ->
  fst (processSyncQueue e w) = Fulfilled tt /\
  store (snd (processSyncQueue e w)) = store w /\
  opened (trace (snd (processSyncQueue e w))) = opened (trace w) /\
  posted (trace (snd (processSyncQueue e w))) = posted (trace w).
Proof.
  intros Ho. unfold processSyncQueue. unfold_async. run. rewrite Ho. run.
  repeat split; auto.
  - induction (trace w) as [|[] tr IH]; simpl; auto. rewrite IH. reflexivity.
  - induction (trace w) as [|[] tr IH]; simpl; auto. rewrite IH. reflexivity.
Qed.

Lemma processSyncQueue_store e w :
  idb_open_ok e (tick w) = true ->
  store (snd (processSyncQueue e w)) = replay_store (store w) (store w).
Proof.
  intros Ho. destruct (processSyncQueue_opens e w Ho) as (wm & Hs & Ha & _ & ->).
  destruct (store w) as [|x l] eqn:Es; [simpl; congruence|].
  rewrite replay_active; auto. congruence.
Qed.

(** A pass over a quiet store deletes nothing, whatever the platform does. *)
Lemma processSyncQueue_quiet e w :
  quiet (store w) = true -> store (snd (processSyncQueue e w)) = store w.
Proof.
  intros Hq. destruct (idb_open_ok e (tick w)) eqn:Ho.
  - destruct (processSyncQueue_opens e w Ho) as (wm & Hs & Ha & _ & ->).
    destruct (store w) as [|x l] eqn:Es; [simpl; congruence|].
    rewrite replay_quiet; auto.
  - apply processSyncQueue_open_fails; auto.
Qed.

(** A pass comes to its end when every fetch settles. *)
Lemma processSyncQueue_settles e w :
  settles e -> fst (processSyncQueue e w) = Fulfilled tt.
Proof.
  intros Hs. destruct (idb_open_ok e (tick w)) eqn:Ho.
  - destruct (processSyncQueue_opens e w Ho) as (wm & _ & _ & _ & ->).
    destruct (store w); [reflexivity|]. apply replay_settles; auto.
  - apply processSyncQueue_open_fails; auto.
Qed.

(** A pass posts nothing itself and opens at most one transaction. *)
Lemma processSyncQueue_trace e w :
  posted (trace (snd (processSyncQueue e w))) = posted (trace w) /\
  (opened (trace (snd (processSyncQueue e w))) = opened (trace w) \/
   opened (trace (snd (processSyncQueue e w))) = (opened (trace w) ++ [tx_count w])%list).
Proof.
  assert (Ho' : forall tr t u, opened (tr ++ [OpTransaction t; OpGetAll u])
                               = (opened tr ++ [t])%list).
  { induction tr as [|[] tr IH]; simpl; intros; auto; rewrite IH; auto. }
  assert (Hp' : forall tr t u, posted (tr ++ [OpTransaction t; OpGetAll u]) = posted tr).
  { induction tr as [|[] tr IH]; simpl; intros; auto; rewrite IH; auto. }
  destruct (idb_open_ok e (tick w)) eqn:Ho.
  - destruct (processSyncQueue_opens e w Ho) as (wm & _ & _ & Ht & ->).
    destruct (store w) as [|x l].
    + simpl. rewrite Ht, Ho', Hp'. auto.
    + destruct (replay_trace (tx_count w) (x :: l) e wm) as [-> ->].
      rewrite Ht, Ho', Hp'. auto.
  - destruct (processSyncQueue_open_fails e w Ho) as (_ & _ & -> & ->). auto.
Qed.

(** ** What a pass leaves in the store *)

Lemma quiet_inert_prefix p l : Forall inert p -> quiet (p ++ l) = quiet l.
Proof.
  induction 1 as [|x p [Hm Hr] _ IH]; simpl; auto. rewrite Hm, Hr. exact IH.
Qed.

Lemma filter_other_keys (k : Z) (l : list QueueEntry) :
  ~ In k (map id l) -> filter (fun y => negb (id y =? k)) l = l.
Proof.
  induction l as [|y l IH]; simpl; intros H; auto.
  destruct (Z.eqb_spec (id y) k) as [E|E]; simpl.
  - exfalso. apply H. auto.
  - rewrite IH; auto.
Qed.

Lemma filter_unique_key p x l :
  NoDup (map id (p ++ x :: l)) ->
  filter (fun y => negb (id y =? id x)) (p ++ x :: l) = (p ++ l)%list.
Proof.
  intros H. rewrite map_app in H. simpl in H.
  apply NoDup_remove_2 in H.
  rewrite filter_app. simpl. rewrite Z.eqb_refl. simpl.
  rewrite !filter_other_keys; auto; intros Hin; apply H, in_or_app; auto.
Qed.

(** With unique keys, what a pass leaves is quiet: the mock entries that are
    left come after an entry that is sent to the network. *)
Lemma replay_store_quiet l :
  forall p, Forall inert p -> NoDup (map id (p ++ l)) ->
  quiet (replay_store l (p ++ l)) = true.
Proof.
  induction l as [|x l IH]; intros p Hp Hn; simpl.
  - rewrite quiet_inert_prefix; auto.
  - destruct (is_mock x) eqn:Hm.
    + rewrite filter_unique_key; auto. apply IH; auto.
      rewrite map_app in *. simpl in Hn. eapply NoDup_remove_1; eauto.
    + destruct (refused x) eqn:Hr.
      * change (p ++ x :: l)%list with (p ++ [x] ++ l)%list in *.
        rewrite app_assoc in *. apply IH; auto.
        apply Forall_app. split; auto. constructor; auto. split; auto.
      * rewrite quiet_inert_prefix; auto. simpl. rewrite Hm, Hr. reflexivity.
Qed.

(** ** The broadcast *)

Lemma posted_app tr ops : posted (tr ++ ops) = (posted tr ++ posted ops)%list.
Proof.
  induction tr as [|[] tr IH]; simpl; auto. rewrite IH. reflexivity.
Qed.

Lemma post_to_all_run e cs :
  forall w,
    fst (post_to_all cs e w) = Fulfilled tt /\
    store (snd (post_to_all cs e w)) = store w /\
    posted (trace (snd (post_to_all cs e w)))
    = (posted (trace w) ++ completion_messages e (tick w) cs)%list.
Proof.
  induction cs as [|c cs IH]; intros w; simpl.
  - rewrite app_nil_r. auto.
  - unfold_async. run.
    match goal with
    | |- context [post_to_all cs e ?w0] =>
        destruct (IH w0) as (Hf & Hs & Hp);
        destruct (post_to_all cs e w0) as [o w1]; simpl in *; subst o
    end.
    rewrite Hs, Hp. run. rewrite posted_app. simpl. rewrite <- app_assoc. auto.
Qed.

(** ** The [sync] listener *)

Lemma processSyncQueue_outcome e w :
  fst (processSyncQueue e w) = Fulfilled tt \/ fst (processSyncQueue e w) = NeverSettles.
Proof.
  destruct (idb_open_ok e (tick w)) eqn:Ho.
  - destruct (processSyncQueue_opens e w Ho) as (wm & _ & _ & _ & ->).
    destruct (store w); [left; reflexivity|]. apply replay_outcome.
  - left. apply processSyncQueue_open_fails; auto.
Qed.

(** The listener runs a pass and, when the pass has come to its end, leaves
    the broadcast as a task of its own. *)
Lemma sync_listener_run e w :
  sync_listener "sync-queue" e w =
  match fst (processSyncQueue e w) with
  | Fulfilled _ =>
      (Fulfilled tt,
       set_background (background (snd (processSyncQueue e w)) ++ [BgBroadcast])
                      (snd (processSyncQueue e w)))
  | _ => (NeverSettles, snd (processSyncQueue e w))
  end.
Proof.
  unfold sync_listener. simpl.
  unfold try_catch at 1. unfold bind at 1.
  destruct (processSyncQueue_outcome e w) as [H | H];
    destruct (processSyncQueue e w) as [[a|err|] w1]; simpl in *; try discriminate; auto.
Qed.

Lemma sync_listener_store e w :
  store (snd (sync_listener "sync-queue" e w)) = store (snd (processSyncQueue e w)).
Proof.
  rewrite sync_listener_run.
  destruct (fst (processSyncQueue e w)); auto.
Qed.

(** The loop leaves the unawaited tasks alone. *)
Lemma replay_one_background t x e w :
  background (snd (replay_one t x e w)) = background w.
Proof.
  unfold replay_one. unfold_async. run.
  destruct (entry_url x =? "/api/mock-endpoint")%string; run.
  - destruct (existsb (Nat.eqb t) (tx_active w)); run; auto.
  - destruct (entry_body x);
      [destruct ((entry_method x =? "GET")%string || (entry_method x =? "HEAD")%string)|];
      run; auto;
      destruct (network e (tick w) (entry_url x)) as [r| |]; run; auto;
      destruct (ok r); run; rewrite ?filter_none; run; auto.
Qed.

Lemma replay_background t l e :
  forall w, background (snd (replay t l e w)) = background w.
Proof.
  induction l as [|x l IH]; intros w; [reflexivity|].
  rewrite replay_cons.
  pose proof (replay_one_background t x e w) as Hb.
  destruct (replay_one_outcome t x e w) as [-> | ->]; simpl; auto.
  rewrite IH. exact Hb.
Qed.

Lemma processSyncQueue_background e w :
  background (snd (processSyncQueue e w)) = background w.
Proof.
  destruct (idb_open_ok e (tick w)) eqn:Ho.
  - assert (H : exists wm, background wm = background w /\
                  processSyncQueue e w =
                  match store w with
                  | [] => (Fulfilled tt, wm)
                  | _ => replay (tx_count w) (store w) e wm
                  end).
    { unfold processSyncQueue.
      unfold try_catch at 1. unfold bind at 1.
      unfold openSyncDatabase at 1. unfold_async. run. rewrite Ho. run.
      rewrite filter_none. run. rewrite Nat.eqb_refl. run. rewrite Nat.eqb_refl. run.
      eexists. split; cycle 1.
      - destruct (store w) as [|x l] eqn:Es; [reflexivity|].
        match goal with
        | |- context [replay ?t ?l ?e ?w0] =>
            destruct (replay_outcome t l e w0) as [H | H];
            destruct (replay t l e w0) as [[a|err|] w1]; simpl in H; try discriminate;
            reflexivity
        end.
      - reflexivity. }
    destruct H as (wm & Hb & ->).
    destruct (store w); [exact Hb|]. rewrite replay_background. exact Hb.
  - unfold processSyncQueue. unfold_async. run. rewrite Ho. run. reflexivity.
Qed.

(** ** Replaying twice *)

(** A store with an entry whose url is literally [/api/mock-endpoint]: when the
    first pass cannot open the store it is abandoned with the queue untouched,
    and the second pass does the deletion. *)
Lemma abandoned_first_pass_leaves_the_work :
  let e1 := Sample.platform NetReject false true in
  let e2 := Sample.platform NetReject true true in
  let w := Sample.with_store [Sample.entry 1 "/api/mock-endpoint"] in
  let w1 := snd (sync_listener "sync-queue" e1 w) in
  let second := sync_listener "sync-queue" e2 w1 in
  store w1 = [Sample.entry 1 "/api/mock-endpoint"] /\
  store (snd second) = [] /\
  store (snd second) <> store w1.
Proof. vm_compute. repeat split. discriminate. Qed.

(** The url of an entry written by the worker is absolute: it never is the
    mock endpoint's path. *)
Lemma href_is_not_mock (u : URL) : (href u =? "/api/mock-endpoint")%string = false.
Proof. unfold href. destruct (protocol u); reflexivity. Qed.

Lemma written_by_worker_quiet (l : list QueueEntry) :
  Forall written_by_worker l -> quiet l = true.
Proof.
  induction 1 as [|x l [u Hu] _ IH]; simpl; auto.
  unfold is_mock. rewrite Hu, href_is_not_mock.
  destruct (refused x); auto.
Qed.

(** C7.  Two replay triggers in a row on a queue as the worker writes it
    (every entry under the absolute URL of its request), with nothing queued
    in between: the second pass deletes nothing; when its fetches settle the
    listener's promise is fulfilled, and the pass has left exactly one
    broadcast behind, which posts one [SYNC_COMPLETED] message, stamped with
    the time, to every page. *)
Theorem second_replay_deletes_nothing (e1 e2 : Env) (w : World) :
  Forall written_by_worker (store w) ->
  settles e2 ->
  let w1 := snd (sync_listener "sync-queue" e1 w) in
  let second := sync_listener "sync-queue" e2 w1 in
  fst second = Fulfilled tt /\
  store (snd second) = store w1 /\
  background (snd second) = (background w1 ++ [BgBroadcast])%list /\
  forall e3 w3,
    fst (run_task BgBroadcast e3 w3) = Fulfilled tt /\
    store (snd (run_task BgBroadcast e3 w3)) = store w3 /\
    posted (trace (snd (run_task BgBroadcast e3 w3)))
    = (posted (trace w3) ++ completion_messages e3 (tick w3) (clients e3))%list.
Proof.
  intros Hw Hs w1 second.
  assert (Hq : quiet (store w1) = true).
  { subst w1. rewrite sync_listener_store, processSyncQueue_quiet;
      apply written_by_worker_quiet; exact Hw. }
  subst second. repeat split.
  - rewrite sync_listener_run, processSyncQueue_settles; auto.
  - rewrite sync_listener_store. apply processSyncQueue_quiet; auto.
  - rewrite sync_listener_run, processSyncQueue_settles; auto. simpl.
    rewrite processSyncQueue_background. reflexivity.
  - apply (post_to_all_run e3 (clients e3) w3).
  - apply (post_to_all_run e3 (clients e3) w3).
  - apply (post_to_all_run e3 (clients e3) w3).
Qed.

Lemma second_replay_deletes_nothing_witness :
  let e := Sample.platform (NetResponse Sample.ok_200) true true in
  let w := Sample.with_store [Sample.entry 1 "https://example.com/api/items";
                              Sample.entry 2 "https://example.com/api/notes"] in
  let w1 := snd (sync_listener "sync-queue" e w) in
  let second := sync_listener "sync-queue" e w1 in
  fst second = Fulfilled tt /\
  store (snd second) = store w1 /\
  background (snd second) = (background w1 ++ [BgBroadcast])%list /\
  forall e3 w3,
    fst (run_task BgBroadcast e3 w3) = Fulfilled tt /\
    store (snd (run_task BgBroadcast e3 w3)) = store w3 /\
    posted (trace (snd (run_task BgBroadcast e3 w3)))
    = (posted (trace w3) ++ completion_messages e3 (tick w3) (clients e3))%list.
Proof.
  apply (@second_replay_deletes_nothing
           (Sample.platform (NetResponse Sample.ok_200) true true)
           (Sample.platform (NetResponse Sample.ok_200) true true)).
  - repeat constructor.
    + exists (mkURL Https "example.com" "/api/items" EmptyString). reflexivity.
    + exists (mkURL Https "example.com" "/api/notes" EmptyString). reflexivity.
  - intros n u. simpl. discriminate.
Defined.

(** ** Replaying an entry that the network accepts *)

(** C2.  One queued POST to [https://example.com/api/items], the store opens
    and the replay fetch is answered 200: the pass calls [store.delete] on the
    transaction that read the entries, which committed while the fetch was
    awaited; the call throws, the error is logged by the loop, and the entry is
    still in the store when the pass ends. *)
Theorem replayed_entry_is_not_deleted :
  let e := Sample.platform (NetResponse Sample.ok_200) true true in
  let w := Sample.with_store [Sample.entry 1 "https://example.com/api/items"] in
  ok Sample.ok_200 = true /\
  fst (processSyncQueue e w) = Fulfilled tt /\
  store (snd (processSyncQueue e w)) = [Sample.entry 1 "https://example.com/api/items"] /\
  trace (snd (processSyncQueue e w)) =
    [ OpTransaction 0; OpGetAll 0;
      OpFetch "https://example.com/api/items" "POST" (Some Sample.x_is_1);
      OpDelete 0 1;
      OpConsoleError "[SW] Error processing queued request" ].
Proof. vm_compute. repeat split. Qed.

(** No answer of the network makes the loop delete an entry it has sent: the
    entry is in the store after its iteration as it was before. *)
Lemma sent_entry_stays t x e w :
  is_mock x = false -> refused x = false ->
  store (snd (replay_one t x e w)) = store w.
Proof. intros Hm Hr. apply replay_one_network; auto. Qed.

(** A pass over a store whose first entry is sent to the network deletes
    nothing at all, whatever the platform does. *)
Lemma pass_after_sent_entry_deletes_nothing e w x l :
  store w = x :: l -> is_mock x = false -> refused x = false ->
  store (snd (processSyncQueue e w)) = store w.
Proof.
  intros Hs Hm Hr. apply processSyncQueue_quiet. rewrite Hs. simpl.
  rewrite Hm, Hr. reflexivity.
Qed.

(** An answer that is not ok, or a rejected fetch, leaves the entry and the
    loop goes on with the next one. *)
Lemma failed_entry_stays_and_loop_continues t x l e w :
  is_mock x = false -> refused x = false ->
  (forall r, network e (tick w) (entry_url x) = NetResponse r -> ok r = false) ->
  network e (tick w) (entry_url x) <> NetNever ->
  exists w1, store w1 = store w /\ replay t (x :: l) e w = replay t l e w1.
Proof.
  intros Hm Hr Hok Hnever.
  exists (snd (replay_one t x e w)). split; [apply sent_entry_stays; auto|].
  rewrite replay_cons.
  destruct (replay_one_outcome t x e w) as [-> | H]; [reflexivity|].
  exfalso. revert H. unfold is_mock in Hm. unfold refused in Hr.
  unfold replay_one. unfold_async. run. rewrite Hm.
  destruct (entry_body x); [rewrite Hr|]; run;
    destruct (network e (tick w) (entry_url x)) as [r| |] eqn:E; run;
    try discriminate; try congruence;
    rewrite (Hok r eq_refl); run; discriminate.
Qed.

(** ** Transactions of a replay pass *)

(** C4.  Two queued requests, both answered 200: the pass opens one
    transaction, reads all entries in it, and after each fetch calls
    [store.delete] on that same transaction; no transaction is opened after a
    fetch. *)
Theorem deletions_reuse_the_read_transaction :
  let e := Sample.platform (NetResponse Sample.ok_200) true true in
  let w := Sample.with_store [Sample.entry 1 "https://example.com/api/items";
                              Sample.entry 2 "https://example.com/api/notes"] in
  trace (snd (processSyncQueue e w)) =
    [ OpTransaction 0; OpGetAll 0;
      OpFetch "https://example.com/api/items" "POST" (Some Sample.x_is_1);
      OpDelete 0 1;
      OpConsoleError "[SW] Error processing queued request";
      OpFetch "https://example.com/api/notes" "POST" (Some Sample.x_is_1);
      OpDelete 0 2;
      OpConsoleError "[SW] Error processing queued request" ] /\
  opened (trace (snd (processSyncQueue e w))) = [0%nat] /\
  map id (store (snd (processSyncQueue e w))) = [1; 2].
Proof. vm_compute. repeat split. Qed.

(** ** The mock endpoint *)

(** C8.  A POST to [/api/mock-endpoint] without body, made while offline, is
    queued with key 1 under its absolute URL; at the next replay trigger, still
    offline, the loop does not take the mock branch: it sends the request to
    the network and the entry stays in the store. *)
Theorem mock_post_is_replayed_over_the_network :
  let offline := Sample.platform NetReject true true in
  let queued := handleAPIRequest (Sample.api "POST" "/api/mock-endpoint" None)
                                 offline Sample.fresh in
  let replayed := sync_listener "sync-queue" offline (snd queued) in
  fst queued = Fulfilled queued_response /\
  map id (store (snd queued)) = [1] /\
  map entry_url (store (snd queued)) = ["https://example.com/api/mock-endpoint"] /\
  map is_mock (store (snd queued)) = [false] /\
  store (snd replayed) = store (snd queued) /\
  In (OpFetch "https://example.com/api/mock-endpoint" "POST" (Some []))
     (trace (snd replayed)).
Proof. vm_compute. repeat split. auto 10. Qed.

(** The same POST with the body [{"x":1}] is not queued at all: its body went
    to the failed fetch, [request.clone()] throws in the [catch] clause, and
    the handler's promise is rejected. *)
Lemma mock_post_with_body_is_not_queued :
  let offline := Sample.platform NetReject true true in
  let queued := handleAPIRequest (Sample.api "POST" "/api/mock-endpoint" (Some Sample.x_is_1))
                                 offline Sample.fresh in
  fst queued = Rejected (TypeError "Request body is already used") /\
  store (snd queued) = [].
Proof. vm_compute. split; reflexivity. Qed.

(** A stored mock entry that comes after an entry sent to the network is not
    deleted either. *)
Lemma mock_entry_after_network_entry_stays :
  let e := Sample.platform (NetResponse Sample.ok_200) true true in
  let w := Sample.with_store [Sample.entry 1 "https://example.com/api/items";
                              Sample.entry 2 "/api/mock-endpoint"] in
  map id (store (snd (processSyncQueue e w))) = [1; 2].
Proof. vm_compute. reflexivity. Qed.

(** A stored mock entry met while the transaction is active is deleted without
    any fetch. *)
Lemma mock_entry_first_is_deleted t x e w :
  is_active t w = true -> is_mock x = true ->
  store (snd (replay_one t x e w)) = filter (fun y => negb (id y =? id x)) (store w) /\
  trace (snd (replay_one t x e w)) = (trace w ++ [OpDelete t (id x)])%list.
Proof. intros Ha Hm. destruct (replay_one_mock t x e w Ha Hm) as (_ & ? & _ & ?). auto. Qed.

(** ** Queueing failures *)

(** C1.  A POST to [/api/items] without body, nothing cached, the fetch
    rejects, the store opens and the insert fails: the promise that the fetch
    listener hands to [respondWith] is rejected with the error of the insert. *)
Theorem insert_failure_rejects_the_response :
  let e := Sample.platform NetReject true false in
  let request := Sample.api "POST" "/api/items" None in
  exists p, fetch_listener e request = RespondWith p /\
            fst (p e Sample.fresh) = Rejected (StoreError "add request failed").
Proof. eexists. split; [reflexivity|]. vm_compute. reflexivity. Qed.

(** A store that does not open is logged and swallowed: the caller gets the
    acknowledgment and nothing is queued. *)
Lemma open_failure_is_swallowed :
  let e := Sample.platform NetReject false true in
  let r := handleAPIRequest (Sample.api "POST" "/api/items" None) e Sample.fresh in
  fst r = Fulfilled queued_response /\
  store (snd r) = [] /\
  In (OpConsoleError "Failed to queue request for sync") (trace (snd r)).
Proof. vm_compute. repeat split. auto. Qed.

(** The escape of an insert failure does not depend on the request: for any
    POST or PUT without body whose fetch rejects, with the store open and the
    insert failing, the handler's promise is rejected and nothing is stored. *)
Lemma insert_failure_escapes (e : Env) (w : World) (request : Request) :
  method request = "POST" \/ method request = "PUT" ->
  body request = None ->
  network e (1 + tick w)%nat (href (url request)) = NetReject ->
  idb_open_ok e (3 + tick w)%nat = true ->
  idb_add_ok e (4 + tick w)%nat = false ->
  fst (handleAPIRequest request e w) = Rejected (StoreError "add request failed") /\
  store (snd (handleAPIRequest request e w)) = store w.
Proof.
  intros Hm Hb Hn Ho Ha. simpl in Hn, Ho, Ha.
  assert (Hget : (method request =? "GET")%string = false).
  { destruct Hm as [-> | ->]; reflexivity. }
  assert (Hpp : ((method request =? "POST") || (method request =? "PUT"))%string = true).
  { destruct Hm as [-> | ->]; reflexivity. }
  assert (Hinc : includes ["POST"; "PUT"] (method request) = true).
  { destruct Hm as [-> | ->]; reflexivity. }
  assert (Hu : unusable request = false) by (unfold unusable; rewrite Hb; reflexivity).
  assert (Hc : unusable (consumed request) = false).
  { unfold unusable, consumed. simpl. rewrite Hb. reflexivity. }
  unfold handleAPIRequest, Request_clone, addToSyncQueue, prepare_requestData,
    insert_promise, Request_bytes.
  unfold_async.
  repeat (progress (run; rewrite ?Hc, ?Hu, ?Hn, ?Hget, ?Hpp, ?Hinc, ?Hb, ?filter_none,
                      ?Ho, ?Nat.eqb_refl, ?Ha)).
  split; reflexivity.
Qed.

(** A POST or PUT that carries a body and whose fetch rejects is never queued:
    the fetch took the body, [request.clone()] throws, and the handler's
    promise is rejected. *)
Lemma write_with_body_escapes (e : Env) (w : World) (request : Request) (b : list Byte.byte) :
  method request = "POST" \/ method request = "PUT" ->
  body request = Some b ->
  bodyUsed request = false ->
  network e (1 + tick w)%nat (href (url request)) = NetReject ->
  fst (handleAPIRequest request e w) = Rejected (TypeError "Request body is already used") /\
  store (snd (handleAPIRequest request e w)) = store w.
Proof.
  intros Hm Hb Hused Hn. simpl in Hn.
  assert (Hget : (method request =? "GET")%string = false).
  { destruct Hm as [-> | ->]; reflexivity. }
  assert (Hpp : ((method request =? "POST") || (method request =? "PUT"))%string = true).
  { destruct Hm as [-> | ->]; reflexivity. }
  assert (Hu : unusable request = false).
  { unfold unusable. rewrite Hb. exact Hused. }
  assert (Hc : unusable (consumed request) = true).
  { unfold unusable, consumed. simpl. rewrite Hb. reflexivity. }
  unfold handleAPIRequest, Request_clone.
  unfold_async.
  repeat (progress (run; rewrite ?Hc, ?Hu, ?Hn, ?Hget, ?Hpp, ?Hb, ?filter_none)).
  split; reflexivity.
Qed.

(** ** Queueing a failed write *)

(** C3.  A POST or PUT API request that carries a body and whose fetch
    rejects is not queued and is not acknowledged: [fetch(request)] took the
    body, so [request.clone()] in the [catch] clause throws, the promise that
    the fetch listener hands to [respondWith] is rejected with that error, and
    the store is as it was. *)
Theorem failed_write_with_body_is_not_queued
    (e : Env) (w : World) (request : Request) (b : list Byte.byte) :
  String.prefix "/api" (pathname (url request)) = true ->
  method request = "POST" \/ method request = "PUT" ->
  body request = Some b ->
  bodyUsed request = false ->
  network e (1 + tick w)%nat (href (url request)) = NetReject ->
  exists p, fetch_listener e request = RespondWith p /\
            fst (p e w) = Rejected (TypeError "Request body is already used") /\
            store (snd (p e w)) = store w.
Proof.
  intros Hapi Hm Hb Hused Hn.
  destruct (@write_with_body_escapes e w request b Hm Hb Hused Hn) as [Hf Hs].
  unfold fetch_listener. rewrite Hapi. eexists. split; [reflexivity|].
  unfold bind. destruct (handleAPIRequest request e w) as [o w'].
  simpl in Hf, Hs. subst o. simpl. auto.
Qed.

Lemma failed_write_with_body_is_not_queued_witness :
  let e := Sample.platform NetReject true true in
  let request := Sample.api "POST" "/api/items" (Some Sample.x_is_1) in
  match_all (caches Sample.fresh) (href (url request)) = None /\
  exists p, fetch_listener e request = RespondWith p /\
            fst (p e Sample.fresh) = Rejected (TypeError "Request body is already used") /\
            store (snd (p e Sample.fresh)) = [].
Proof.
  split; [reflexivity|].
  apply (@failed_write_with_body_is_not_queued
           (Sample.platform NetReject true true) Sample.fresh
           (Sample.api "POST" "/api/items" (Some Sample.x_is_1)) Sample.x_is_1);
    try reflexivity.
  left. reflexivity.
Defined.

(** The open failure is swallowed for every POST or PUT without body whose
    fetch rejects: the acknowledgment is returned and the store is as it
    was. *)
Lemma open_failure_queues_nothing (e : Env) (w : World) (request : Request) :
  method request = "POST" \/ method request = "PUT" ->
  body request = None ->
  network e (1 + tick w)%nat (href (url request)) = NetReject ->
  idb_open_ok e (3 + tick w)%nat = false ->
  fst (handleAPIRequest request e w) = Fulfilled queued_response /\
  store (snd (handleAPIRequest request e w)) = store w.
Proof.
  intros Hm Hb Hn Ho. simpl in Hn, Ho.
  assert (Hget : (method request =? "GET")%string = false).
  { destruct Hm as [-> | ->]; reflexivity. }
  assert (Hpp : ((method request =? "POST") || (method request =? "PUT"))%string = true).
  { destruct Hm as [-> | ->]; reflexivity. }
  assert (Hinc : includes ["POST"; "PUT"] (method request) = true).
  { destruct Hm as [-> | ->]; reflexivity. }
  assert (Hu : unusable request = false) by (unfold unusable; rewrite Hb; reflexivity).
  assert (Hc : unusable (consumed request) = false).
  { unfold unusable, consumed. simpl. rewrite Hb. reflexivity. }
  unfold handleAPIRequest, Request_clone, addToSyncQueue, prepare_requestData,
    insert_promise, Request_bytes.
  unfold_async.
  repeat (progress (run; rewrite ?Hc, ?Hu, ?Hn, ?Hget, ?Hpp, ?Hinc, ?Hb, ?filter_none, ?Ho)).
  split; reflexivity.
Qed.

(** The path the handler was written for.  A POST or PUT API request without
    body whose fetch rejects: when the store opens and the insert succeeds, one entry is
    appended to the store under the next key, with the request's absolute URL,
    method, headers and credentials mode, an empty body buffer and no
    [processed] property, and the caller gets the 200 JSON acknowledgment with
    [message: "Request queued for sync"] and [queued: true].  (No cached
    response can exist for such a request: the caches match GET requests
    only.) *)
Theorem failed_write_is_queued (e : Env) (w : World) (request : Request) :
  method request = "POST" \/ method request = "PUT" ->
  body request = None ->
  network e (1 + tick w)%nat (href (url request)) = NetReject ->
  idb_open_ok e (3 + tick w)%nat = true ->
  idb_add_ok e (4 + tick w)%nat = true ->
  let r := handleAPIRequest request e w in
  fst r = Fulfilled queued_response /\
  store (snd r) =
    (store w ++ [mkEntry (key_generator w) (href (url request)) (method request)
                         (headers request) (credentials request)
                         (date_now e (2 + tick w)%nat) (Some []) None])%list /\
  status queued_response = 200 /\
  rbody queued_response =
    JsonBody (JObj [("message", JStr "Request queued for sync"); ("queued", JBool true)]).
Proof.
  intros Hm Hb Hn Ho Ha. simpl in Hn, Ho, Ha.
  assert (Hget : (method request =? "GET")%string = false).
  { destruct Hm as [-> | ->]; reflexivity. }
  assert (Hpp : ((method request =? "POST") || (method request =? "PUT"))%string = true).
  { destruct Hm as [-> | ->]; reflexivity. }
  assert (Hinc : includes ["POST"; "PUT"] (method request) = true).
  { destruct Hm as [-> | ->]; reflexivity. }
  assert (Hu : unusable request = false) by (unfold unusable; rewrite Hb; reflexivity).
  assert (Hc : unusable (consumed request) = false).
  { unfold unusable, consumed. simpl. rewrite Hb. reflexivity. }
  unfold handleAPIRequest, Request_clone, addToSyncQueue, prepare_requestData,
    insert_promise, Request_bytes.
  unfold_async.
  repeat (progress (run; rewrite ?Hc, ?Hu, ?Hn, ?Hget, ?Hpp, ?Hinc, ?Hb, ?filter_none,
                      ?Ho, ?Nat.eqb_refl, ?Ha)).
  destruct (sync_supported e); run; repeat split; reflexivity.
Qed.

Lemma failed_write_is_queued_witness :
  let e := Sample.platform NetReject true true in
  let r := handleAPIRequest (Sample.api "PUT" "/api/items" None) e Sample.fresh in
  fst r = Fulfilled queued_response /\
  store (snd r) =
    ([] ++ [mkEntry 1 "https://example.com/api/items" "PUT"
                    [("content-type", "application/json")] "same-origin"
                    1002 (Some []) None])%list /\
  status queued_response = 200 /\
  rbody queued_response =
    JsonBody (JObj [("message", JStr "Request queued for sync"); ("queued", JBool true)]).
Proof.
  apply (@failed_write_is_queued (Sample.platform NetReject true true) Sample.fresh
           (Sample.api "PUT" "/api/items" None)); try reflexivity.
  right. reflexivity.
Defined.

(** When the store does not open the failure is logged and swallowed, the
    caller gets the acknowledgment, and no entry has been inserted. *)
Lemma unopened_store_queues_nothing :
  let e := Sample.platform NetReject false true in
  let request := Sample.api "POST" "/api/items" None in
  let r := handleAPIRequest request e Sample.fresh in
  method request = "POST" /\
  network e 1%nat (href (url request)) = NetReject /\
  match_all (caches Sample.fresh) (href (url request)) = None /\
  fst r = Fulfilled queued_response /\
  store (snd r) = store Sample.fresh.
Proof. vm_compute. repeat split. Qed.

(** ** The body of a queued entry *)

(** C9 (as stated) fails for a POST without body: the entry is stored with a
    body, the empty buffer. *)
Lemma empty_body_is_stored :
  let request := Sample.api "POST" "/api/items" None in
  let r := addToSyncQueue request (Sample.platform NetReject true true) Sample.fresh in
  body request = None /\
  map entry_method (store (snd r)) = ["POST"] /\
  map entry_body (store (snd r)) = [Some []].
Proof. vm_compute. repeat split. Qed.

Lemma post_or_put (m : string) :
  includes ["POST"; "PUT"] m = true <-> m = "POST" \/ m = "PUT".
Proof.
  unfold includes. simpl. rewrite orb_false_r, orb_true_iff, !String.eqb_eq. tauto.
Qed.

(** C9 (as amended).  Every entry that [addToSyncQueue] adds to the store has
    the method of the request, its body property is present if and only if
    that method is POST or PUT, and for a POST or PUT the property holds the
    bytes of the request's body: the empty buffer when the request has an
    empty body or no body. *)
Theorem queued_body_follows_method (e : Env) (w : World) (request : Request) :
  exists l,
    store (snd (addToSyncQueue request e w)) = (store w ++ l)%list /\
    Forall (fun x => entry_method x = method request /\
                     (entry_body x <> None <->
                      entry_method x = "POST" \/ entry_method x = "PUT") /\
                     (entry_method x = "POST" \/ entry_method x = "PUT" ->
                      entry_body x
                      = Some (match body request with Some b => b | None => [] end) /\
                      (body request = None \/ body request = Some [] ->
                       entry_body x = Some []))) l.
Proof.
  pose proof (post_or_put (method request)) as Hpp.
  unfold addToSyncQueue, prepare_requestData, insert_promise, Request_bytes.
  unfold_async. run.
  destruct (includes ["POST"; "PUT"] (method request)) eqn:Hinc; run.
  - destruct (unusable request); run.
    + exists []. rewrite app_nil_r. auto.
    + destruct (idb_open_ok e (S (tick w))); run.
      * rewrite Nat.eqb_refl. run.
        destruct (idb_add_ok e (S (S (tick w)))); run.
        -- eexists. split; [destruct (sync_supported e); reflexivity|].
           apply Forall_cons; [|apply Forall_nil]. simpl.
           split; [reflexivity|]. split; [split; intros _; [tauto | discriminate]|].
           intros _. split; [reflexivity|]. intros [-> | ->]; reflexivity.
        -- exists []. rewrite app_nil_r. auto.
      * exists []. rewrite app_nil_r. auto.
  - destruct (idb_open_ok e (S (tick w))); run.
    + rewrite Nat.eqb_refl. run.
      destruct (idb_add_ok e (S (S (tick w)))); run.
      * eexists. split; [destruct (sync_supported e); reflexivity|].
        apply Forall_cons; [|apply Forall_nil]. simpl.
        split; [reflexivity|]. split; [split; intros H|intros H].
        -- exfalso. apply H. reflexivity.
        -- apply Hpp in H. discriminate.
        -- apply Hpp in H. discriminate.
      * exists []. rewrite app_nil_r. auto.
    + exists []. rewrite app_nil_r. auto.
Qed.

(** The invariant is not empty: when the request can be read, the store opens
    and the insert succeeds, exactly one entry is added. *)
Lemma queueing_adds_one_entry (e : Env) (w : World) (request : Request) :
  unusable request = false ->
  (forall n, idb_open_ok e n = true) ->
  (forall n, idb_add_ok e n = true) ->
  exists x, store (snd (addToSyncQueue request e w)) = (store w ++ [x])%list /\
            id x = key_generator w.
Proof.
  intros Hu Ho Ha.
  unfold addToSyncQueue, prepare_requestData, insert_promise, Request_bytes.
  unfold_async. run.
  destruct (includes ["POST"; "PUT"] (method request)); run;
    rewrite ?Hu; run; rewrite Ho; run; rewrite Nat.eqb_refl; run; rewrite Ha; run;
    destruct (sync_supported e); eexists; split; reflexivity.
Qed.

(** An entry made from a request of another method has no body property. *)
Lemma other_method_is_stored_without_body :
  let request := Sample.api "DELETE" "/api/items" (Some Sample.x_is_1) in
  let r := addToSyncQueue request (Sample.platform NetReject true true) Sample.fresh in
  map entry_method (store (snd r)) = ["DELETE"] /\
  map entry_body (store (snd r)) = [None].
Proof. vm_compute. repeat split. Qed.

(** ** Push notifications *)

(** C10 (as stated) fails for the payload [null], which parses as JSON: the
    listener throws when it reads a property of it, and shows nothing. *)
Lemma null_payload_throws :
  json (mkPush "null" (Some JNull)) = Some JNull /\
  push_listener (Some (mkPush "null" (Some JNull))) 0
  = Rejected (TypeError "Cannot read properties of null").
Proof. split; reflexivity. Qed.

(** C10 (as amended).  A payload that parses to a JSON value other than
    [null]: the notification is shown; a missing [body], [icon] or [url] is
    replaced by its default; the title is the payload's [title] property as it
    is, [undefined] when it is missing, and never a default. *)
Theorem parsed_push_defaults (d : PushMessageData) (v : JValue) (now : Z) :
  json d = Some v ->
  v <> JNull ->
  exists s,
    push_listener (Some d) now = Fulfilled s /\
    get_property v "title" = Fulfilled (shown_title s) /\
    (get_property v "title" = Fulfilled None -> shown_title s = None) /\
    (get_property v "body" = Fulfilled None ->
     opt_body (shown_options s) = JStr "No details available") /\
    (get_property v "icon" = Fulfilled None ->
     opt_icon (shown_options s) = JStr "/IP-LAB3/coder.avif") /\
    (get_property v "url" = Fulfilled None ->
     opt_data_url (shown_options s) = JStr "/IP-LAB3/index.html").
Proof.
  intros Hj Hv. unfold push_listener, notificationData. rewrite Hj.
  destruct v; try congruence; simpl; eexists; (split; [reflexivity|]); simpl;
    repeat split; auto; intros H; injection H as H; rewrite ?H; reflexivity.
Qed.

Lemma parsed_push_defaults_witness :
  exists s,
    push_listener (Some (mkPush "{}" (Some (JObj [])))) 5 = Fulfilled s /\
    get_property (JObj []) "title" = Fulfilled (shown_title s) /\
    (get_property (JObj []) "title" = Fulfilled None -> shown_title s = None) /\
    (get_property (JObj []) "body" = Fulfilled None ->
     opt_body (shown_options s) = JStr "No details available") /\
    (get_property (JObj []) "icon" = Fulfilled None ->
     opt_icon (shown_options s) = JStr "/IP-LAB3/coder.avif") /\
    (get_property (JObj []) "url" = Fulfilled None ->
     opt_data_url (shown_options s) = JStr "/IP-LAB3/index.html").
Proof.
  apply (@parsed_push_defaults (mkPush "{}" (Some (JObj []))) (JObj []) 5).
  - reflexivity.
  - discriminate.
Defined.

(** When parsing throws, or there is no payload, the title is the default
    one. *)
Lemma unparsed_push_title (data : option PushMessageData) (now : Z) :
  match data with Some d => json d = None | None => True end ->
  exists s, push_listener data now = Fulfilled s /\
            shown_title s = Some (JStr "New Notification").
Proof.
  intros H. unfold push_listener, notificationData.
  destruct data as [d|]; [rewrite H|]; simpl; eexists; split; reflexivity.
Qed.

(** ** Static assets *)

Lemma assoc_set_same {A} (k : string) (v : A) (l : list (string * A)) :
  assoc k (assoc_set k v l) = Some v.
Proof.
  induction l as [|[k' v'] l IH]; simpl.
  - rewrite String.eqb_refl. reflexivity.
  - destruct (k =? k')%string eqn:E; simpl; rewrite ?E, ?String.eqb_refl; auto.
Qed.

(** A response put into a cache is found by [caches.match] when no cache had
    one for that URL. *)
Lemma match_all_after_put (name u : string) (r : Response) (cs : list (string * Cache)) :
  match_all cs u = None ->
  match_all (assoc_set name
               (assoc_set u r (match assoc name cs with Some c => c | None => [] end)) cs) u
  = Some r.
Proof.
  induction cs as [|[n0 c0] cs IH]; simpl; intros H.
  - rewrite String.eqb_refl. reflexivity.
  - destruct (assoc u c0) eqn:Ec; [discriminate|].
    destruct (name =? n0)%string eqn:E; simpl.
    + rewrite assoc_set_same. reflexivity.
    + rewrite Ec. apply IH. exact H.
Qed.

Lemma match_all_new_cache (cs : list (string * Cache)) (name u : string) :
  match_all (cs ++ [(name, [])]) u = match_all cs u.
Proof.
  induction cs as [|[n c] cs IH]; simpl; auto. destruct (assoc u c); auto.
Qed.

Lemma assoc_new_cache (cs : list (string * Cache)) (name : string) :
  assoc name cs = None -> assoc name (cs ++ [(name, [])]) = Some [].
Proof.
  induction cs as [|[n c] cs IH]; simpl; intros H.
  - rewrite String.eqb_refl. reflexivity.
  - destruct (name =? n)%string; [discriminate|]. auto.
Qed.

(** A response put into a cache that was opened first is found by
    [caches.match] when no cache had one for that URL. *)
Lemma match_all_after_open_put (name u : string) (r : Response) (cs : list (string * Cache)) :
  match_all cs u = None ->
  let cs' := match assoc name cs with
             | Some _ => cs
             | None => (cs ++ [(name, [])])%list
             end in
  match_all (assoc_set name
               (assoc_set u r (match assoc name cs' with Some c => c | None => [] end)) cs') u
  = Some r.
Proof.
  intros H cs'. apply match_all_after_put. subst cs'.
  destruct (assoc name cs); [exact H|]. rewrite match_all_new_cache. exact H.
Qed.

(** The task [caches.open(name).then(cache => cache.put(request, r))], for a
    response the cache accepts. *)
Lemma put_task_run (name : string) (request : Request) (r : Response) (e : Env) (w : World) :
  method request = "GET" ->
  status r <> 206 ->
  vary_star r = false ->
  let cs' := match assoc name (caches w) with
             | Some _ => caches w
             | None => (caches w ++ [(name, [])])%list
             end in
  exists w2,
    run_task (BgCachePut name request r) e w = (Fulfilled tt, w2) /\
    caches w2
    = assoc_set name
        (assoc_set (href (url request)) r
                   (match assoc name cs' with Some c => c | None => [] end)) cs' /\
    store w2 = store w /\ background w2 = background w /\ tick w2 = S (S (tick w)).
Proof.
  intros Hm H206 Hv. apply Z.eqb_neq in H206.
  unfold run_task. unfold_async. run. rewrite Hm, H206, Hv. run.
  destruct (assoc name (caches w)); run; eexists; (split; [reflexivity|]); repeat split.
Qed.

(** C5 (as stated) fails for a font of a whitelisted third-party host: the
    cache misses, the fetch is answered 200 with a response of type [cors],
    the response is returned, nothing is put into the cache, and the same
    request misses the cache again. *)
Lemma cross_origin_asset_is_not_cached :
  let font := mkResponse 200 "cors" [] (TextBody "woff2") in
  let e := Sample.platform (NetResponse font) true true in
  let request := Sample.page "fonts.gstatic.com" "/s/inter.woff2" EmptyString "no-cors" in
  let first := respond_static request e Sample.fresh in
  let later := run_background 3 e (snd first) in
  fetch_listener e request = RespondWith (respond_static request) /\
  fst first = Fulfilled (Some font) /\
  background (snd first) = [] /\
  caches later = [] /\
  fst (caches_match (method request) (href (url request)) e later) = Fulfilled None.
Proof. vm_compute. repeat split. Qed.

(** C5 (as amended).  A GET request for a static asset that misses the caches
    and whose fetch is answered with a response of status 200 and type
    [basic] that has no [Vary: *] header: the response is returned and a put
    into [pwa-cache-v1], keyed by the request itself and not by the
    cache-busted URL, is started without being awaited; once that put has run,
    the same request is a cache hit that returns the response, whatever the
    network does then. *)
Theorem fetched_asset_is_cached (e : Env) (w : World) (request : Request) (r : Response) :
  method request = "GET" ->
  match_all (caches w) (href (url request)) = None ->
  (forall u, network e (2 + tick w)%nat u = NetResponse r) ->
  status r = 200 ->
  rtype r = "basic" ->
  vary_star r = false ->
  let first := respond_static request e w in
  let put := BgCachePut CACHE_NAME request r in
  fst first = Fulfilled (Some r) /\
  background (snd first) = (background w ++ [put])%list /\
  caches (snd first) = caches w /\
  forall e',
    let w2 := snd (run_task put e' (snd first)) in
    match_all (caches w2) (href (url request)) = Some r /\
    fst (respond_static request e' w2) = Fulfilled (Some r).
Proof.
  intros Hm Hmiss Hn Hs Ht Hv. simpl in Hn.
  assert (Hb : negb (status r =? 200) || negb (rtype r =? "basic")%string = false).
  { rewrite Hs, Ht. reflexivity. }
  assert (H206 : status r <> 206) by (rewrite Hs; discriminate).
  assert (Hfirst : fst (respond_static request e w) = Fulfilled (Some r) /\
                   background (snd (respond_static request e w))
                   = (background w ++ [BgCachePut CACHE_NAME request r])%list /\
                   caches (snd (respond_static request e w)) = caches w).
  { unfold respond_static, fetchAndUpdateCache, start_fetchAndUpdateCache, getFixedUrl,
      fetched_then.
    unfold_async.
    repeat (progress (run; rewrite ?Hm, ?String.eqb_refl, ?Hmiss, ?Hn, ?Hb)).
    repeat split. }
  destruct Hfirst as (Hf & Hbg & Hc). intros first put. subst first put.
  split; [exact Hf|]. split; [exact Hbg|]. split; [exact Hc|].
  intros e' w2. subst w2.
  destruct (@put_task_run CACHE_NAME request r e'
              (snd (respond_static request e w)) Hm H206 Hv) as (w2 & Hrun & Hc2 & _).
  rewrite Hrun. simpl snd.
  assert (Hhit : match_all (caches w2) (href (url request)) = Some r).
  { rewrite Hc2, Hc. apply match_all_after_open_put. exact Hmiss. }
  split; [exact Hhit|].
  unfold respond_static. unfold_async. run.
  rewrite Hm, String.eqb_refl, Hhit. run. reflexivity.
Qed.

Lemma fetched_asset_is_cached_witness :
  let e := Sample.platform (NetResponse Sample.ok_200) true true in
  let request := Sample.page "example.com" "/index.html" "?x=1" "navigate" in
  let first := respond_static request e Sample.fresh in
  let put := BgCachePut CACHE_NAME request Sample.ok_200 in
  fst first = Fulfilled (Some Sample.ok_200) /\
  background (snd first) = (background Sample.fresh ++ [put])%list /\
  caches (snd first) = caches Sample.fresh /\
  forall e',
    let w2 := snd (run_task put e' (snd first)) in
    match_all (caches w2) (href (url request)) = Some Sample.ok_200 /\
    fst (respond_static request e' w2) = Fulfilled (Some Sample.ok_200).
Proof.
  apply (@fetched_asset_is_cached (Sample.platform (NetResponse Sample.ok_200) true true)
           Sample.fresh (Sample.page "example.com" "/index.html" "?x=1" "navigate")
           Sample.ok_200); try reflexivity.
Defined.

(** A response of another status or type is returned as it is and no put is
    started: the caches and the tasks left behind are as they were. *)
Lemma other_response_is_not_cached (e : Env) (w : World) (request : Request) (r : Response) :
  fst (caches_match (method request) (href (url request)) e w) = Fulfilled None ->
  (forall u, network e (2 + tick w)%nat u = NetResponse r) ->
  negb (status r =? 200) || negb (rtype r =? "basic")%string = true ->
  let first := respond_static request e w in
  fst first = Fulfilled (Some r) /\
  background (snd first) = background w /\
  caches (snd first) = caches w.
Proof.
  intros Hmiss Hn Hb. simpl in Hn. revert Hmiss.
  unfold respond_static, fetchAndUpdateCache, start_fetchAndUpdateCache, getFixedUrl,
    fetched_then.
  unfold_async. run. intros Hmiss. injection Hmiss as Hmiss. rewrite Hmiss.
  repeat (progress (run; rewrite ?Hn, ?Hb)).
  repeat split.
Qed.

(** A response of status 200 and type [basic] with [Vary: *] is returned, and
    the put that was started for it is refused by the cache: the request
    misses the caches afterwards as before. *)
Lemma vary_star_response_is_refused :
  let r := mkResponse 200 "basic" [("Vary", "Accept, *")] (TextBody "done") in
  let e := Sample.platform (NetResponse r) true true in
  let request := Sample.page "example.com" "/index.html" EmptyString "navigate" in
  let first := respond_static request e Sample.fresh in
  let put := run_task (BgCachePut CACHE_NAME request r) e (snd first) in
  fst first = Fulfilled (Some r) /\
  background (snd first) = [BgCachePut CACHE_NAME request r] /\
  fst put = Rejected (TypeError "Vary header contains *") /\
  match_all (caches (snd put)) (href (url request)) = None.
Proof. vm_compute. repeat split. Qed.

(** The fetch of a static asset goes to the cache-busted URL on the worker's
    own host, and to the URL as it is on another host. *)
Lemma cache_bust_example :
  let e := Sample.platform NetReject true true in
  fst (getFixedUrl (Sample.page "example.com" "/index.html" "?x=1" "navigate") e Sample.fresh)
  = Fulfilled "https://example.com/index.html?x=1&cache-bust=1000" /\
  fst (getFixedUrl (Sample.page "cdn.jsdelivr.net" "/npm/a.js" EmptyString "no-cors") e Sample.fresh)
  = Fulfilled "https://cdn.jsdelivr.net/npm/a.js".
Proof. vm_compute. split; reflexivity. Qed.

(** C6.  A static-asset request that hits the cache: the promise given to
    [respondWith] is fulfilled with the cached response, for every behaviour
    of the platform, so also when the refetch fails or never settles; the
    refetch has been issued and is left to run unawaited. *)
Theorem cache_hit_is_served (e : Env) (w : World) (request : Request) (r : Response) :
  String.prefix "/api" (pathname (url request)) = false ->
  includes (HOSTNAME_WHITELIST e) (hostname (url request)) = true ->
  fst (caches_match (method request) (href (url request)) e w) = Fulfilled (Some r) ->
  exists p,
    fetch_listener e request = RespondWith p /\
    fst (p e w) = Fulfilled (Some r) /\
    exists u,
      background (snd (p e w))
      = (background w ++ [BgFetched request (network e (2 + tick w)%nat u)])%list /\
      trace (snd (p e w)) = (trace w ++ [OpFetch u "GET" None])%list.
Proof.
  intros Hapi Hw Hhit. exists (respond_static request).
  split; [unfold fetch_listener; rewrite Hapi, Hw; reflexivity|].
  revert Hhit.
  unfold respond_static, start_fetchAndUpdateCache, getFixedUrl.
  unfold_async. run. intros Hhit. injection Hhit as Hhit. rewrite Hhit. run.
  split; [reflexivity|]. eexists. split; reflexivity.
Qed.

Lemma cache_hit_is_served_witness :
  let e := Sample.platform NetNever true true in
  let request := Sample.page "example.com" "/index.html" EmptyString "navigate" in
  let w := mkWorld 0 [(CACHE_NAME, [("https://example.com/index.html", Sample.ok_200)])]
                   [] 1 0 [] [] [] in
  exists p,
    fetch_listener e request = RespondWith p /\
    fst (p e w) = Fulfilled (Some Sample.ok_200) /\
    exists u,
      background (snd (p e w))
      = (background w ++ [BgFetched request (network e (2 + tick w)%nat u)])%list /\
      trace (snd (p e w)) = (trace w ++ [OpFetch u "GET" None])%list.
Proof.
  apply (@cache_hit_is_served (Sample.platform NetNever true true)
           (mkWorld 0 [(CACHE_NAME, [("https://example.com/index.html", Sample.ok_200)])]
                    [] 1 0 [] [] [])
           (Sample.page "example.com" "/index.html" EmptyString "navigate") Sample.ok_200);
    reflexivity.
Defined.

(** * Further properties of the worker *)

(** ** What a replay pass can do to the store *)

Lemma filter_all {A} (l : list A) : filter (fun _ => true) l = l.
Proof. induction l; simpl; congruence. Qed.

Lemma filter_twice {A} (f g : A -> bool) (l : list A) :
  filter g (filter f l) = filter (fun x => f x && g x) l.
Proof.
  induction l as [|a l IH]; simpl; auto.
  destruct (f a); simpl; [destruct (g a)|]; simpl; congruence.
Qed.

(** What the loop leaves is the store without the keys of some of the mock
    entries it has read. *)
Lemma replay_store_deletes_mock_keys l :
  forall s, exists ks,
    incl ks (map id (filter is_mock l)) /\
    replay_store l s = filter (fun x => negb (existsb (Z.eqb (id x)) ks)) s.
Proof.
  induction l as [|x l IH]; intros s; simpl.
  - exists []. split; [apply incl_refl|]. simpl. symmetry. apply filter_all.
  - destruct (is_mock x) eqn:Hm.
    + destruct (IH (filter (fun y => negb (id y =? id x)) s)) as (ks & Hi & ->).
      exists (id x :: ks). split.
      * simpl. apply incl_cons; [left; reflexivity|]. apply incl_tl. exact Hi.
      * rewrite filter_twice. apply filter_ext. intros y. simpl.
        rewrite negb_orb. reflexivity.
    + destruct (refused x).
      * apply IH.
      * exists []. split; [apply incl_nil_l|]. simpl. symmetry. apply filter_all.
Qed.

(** The store after a [sync-queue] event, for every behaviour of the
    platform. *)
Lemma sync_store_is_filtered (e : Env) (w : World) :
  exists ks,
    incl ks (map id (filter is_mock (store w))) /\
    store (snd (sync_listener "sync-queue" e w))
    = filter (fun x => negb (existsb (Z.eqb (id x)) ks)) (store w).
Proof.
  rewrite sync_listener_store.
  destruct (idb_open_ok e (tick w)) eqn:Ho.
  - rewrite processSyncQueue_store; auto. apply replay_store_deletes_mock_keys.
  - exists []. split; [apply incl_nil_l|].
    destruct (processSyncQueue_open_fails e w Ho) as (_ & -> & _).
    simpl. symmetry. apply filter_all.
Qed.

(** X1.  A replay pass only deletes: whatever the platform does, the store
    after a [sync-queue] event is the store before it without the entries
    whose key is in some set of keys of mock entries; no entry is added,
    altered or reordered, and no key of another entry is deleted. *)
Theorem replay_only_deletes_mock_keys (e : Env) (w : World) :
  exists ks,
    incl ks (map id (filter is_mock (store w))) /\
    store (snd (sync_listener "sync-queue" e w))
    = filter (fun x => negb (existsb (Z.eqb (id x)) ks)) (store w).
Proof. exact (sync_store_is_filtered e w). Qed.

(** ** What a replay pass sends *)

Lemma fetched_app tr ops : fetched (tr ++ ops) = (fetched tr ++ fetched ops)%list.
Proof.
  induction tr as [|[] tr IH]; simpl; auto. rewrite IH. reflexivity.
Qed.

Lemma replay_one_fetches t x e w :
  exists ops,
    trace (snd (replay_one t x e w)) = (trace w ++ ops)%list /\
    (fetched ops = [] \/ (fetched ops = [entry_url x] /\ is_mock x = false)) /\
    key_generator (snd (replay_one t x e w)) = key_generator w.
Proof.
  unfold is_mock, replay_one. unfold_async. run.
  destruct (entry_url x =? "/api/mock-endpoint")%string; run.
  - destruct (existsb (Nat.eqb t) (tx_active w)); run;
      rewrite <- ?app_assoc; eexists; (split; [reflexivity|]); simpl; auto.
  - destruct (entry_body x);
      [destruct ((entry_method x =? "GET")%string || (entry_method x =? "HEAD")%string)|];
      run; rewrite <- ?app_assoc;
      try (eexists; (split; [reflexivity|]); simpl; now auto);
      destruct (network e (tick w) (entry_url x)) as [r| |]; run;
      rewrite <- ?app_assoc;
      try (eexists; (split; [reflexivity|]); simpl; now auto);
      destruct (ok r); run; rewrite ?filter_none; run; rewrite <- ?app_assoc;
      eexists; (split; [reflexivity|]); simpl; auto.
Qed.

Lemma replay_fetches t l e :
  forall w, exists ops,
    trace (snd (replay t l e w)) = (trace w ++ ops)%list /\
    incl (fetched ops) (map entry_url (filter (fun x => negb (is_mock x)) l)) /\
    key_generator (snd (replay t l e w)) = key_generator w.
Proof.
  induction l as [|x l IH]; intros w.
  - exists []. simpl. rewrite app_nil_r. repeat split. apply incl_nil_l.
  - rewrite replay_cons.
    destruct (replay_one_fetches t x e w) as (ops1 & Ht1 & Hf1 & Hk1).
    assert (H1 : incl (fetched ops1)
                      (map entry_url (filter (fun x => negb (is_mock x)) (x :: l)))).
    { destruct Hf1 as [-> | [-> Hm]]; [apply incl_nil_l|].
      simpl. rewrite Hm. simpl. apply incl_cons; [left; reflexivity|apply incl_nil_l]. }
    destruct (replay_one_outcome t x e w) as [-> | ->]; simpl;
      [|exists ops1; auto].
    destruct (IH (snd (replay_one t x e w))) as (ops2 & Ht2 & Hf2 & Hk2).
    exists (ops1 ++ ops2)%list. rewrite Ht2, Ht1, app_assoc, fetched_app. repeat split.
    + apply incl_app; auto.
      intros u Hu. apply Hf2 in Hu. simpl.
      destruct (negb (is_mock x)); simpl; auto.
    + congruence.
Qed.

(** The pass up to the loop, with everything it leaves untouched. *)
Lemma processSyncQueue_until_loop e w :
  idb_open_ok e (tick w) = true ->
  exists wm,
    store wm = store w /\ key_generator wm = key_generator w /\ caches wm = caches w /\
    trace wm = (trace w ++ [OpTransaction (tx_count w); OpGetAll (tx_count w)])%list /\
    processSyncQueue e w =
      match store w with
      | [] => (Fulfilled tt, wm)
      | _ => replay (tx_count w) (store w) e wm
      end.
Proof.
  intros Ho. unfold processSyncQueue.
  unfold try_catch at 1. unfold bind at 1.
  unfold openSyncDatabase at 1. unfold_async. run. rewrite Ho. run.
  rewrite filter_none. run. rewrite Nat.eqb_refl. run. rewrite Nat.eqb_refl. run.
  eexists. split; [|split; [|split; [|split]]]; cycle 4.
  - destruct (store w) as [|x l] eqn:Es; [reflexivity|].
    match goal with
    | |- context [replay ?t ?l ?e ?w0] =>
        destruct (replay_outcome t l e w0) as [H | H];
        destruct (replay t l e w0) as [[a|err|] w1]; simpl in H; try discriminate;
        reflexivity
    end.
  - reflexivity.
  - reflexivity.
  - reflexivity.
  - run. rewrite <- app_assoc. reflexivity.
Qed.

Lemma processSyncQueue_fetches e w :
  exists ops,
    trace (snd (processSyncQueue e w)) = (trace w ++ ops)%list /\
    incl (fetched ops) (map entry_url (filter (fun x => negb (is_mock x)) (store w))) /\
    key_generator (snd (processSyncQueue e w)) = key_generator w.
Proof.
  destruct (idb_open_ok e (tick w)) eqn:Ho.
  - destruct (processSyncQueue_until_loop e w Ho) as (wm & Hs & Hk & _ & Ht & ->).
    destruct (store w) as [|x l] eqn:Es.
    + simpl. eexists. split; [exact Ht|]. split; [apply incl_nil_l|exact Hk].
    + destruct (replay_fetches (tx_count w) (x :: l) e wm) as (ops & Ht2 & Hf & Hk2).
      exists ([OpTransaction (tx_count w); OpGetAll (tx_count w)] ++ ops)%list.
      rewrite Ht2, Ht, <- app_assoc. repeat split; auto. congruence.
  - unfold processSyncQueue. unfold_async. run. rewrite Ho. run.
    eexists. split; [reflexivity|]. split; [apply incl_nil_l|reflexivity].
Qed.

Lemma post_to_all_frame e cs :
  forall w, exists ops,
    trace (snd (post_to_all cs e w)) = (trace w ++ ops)%list /\
    fetched ops = [] /\ registered ops = [] /\
    key_generator (snd (post_to_all cs e w)) = key_generator w /\
    caches (snd (post_to_all cs e w)) = caches w.
Proof.
  induction cs as [|c cs IH]; intros w; simpl.
  - exists []. rewrite app_nil_r. auto.
  - unfold_async. run.
    match goal with
    | |- context [post_to_all cs e ?w0] =>
        destruct (IH w0) as (ops & Ht & Hf & Hr & Hk & Hc);
        destruct (post_to_all_run e cs w0) as (Hfst & _);
        destruct (post_to_all cs e w0) as [o w1]; simpl in *; subst o
    end.
    eexists. rewrite Ht. run. rewrite <- app_assoc. split; [reflexivity|].
    simpl. auto.
Qed.

(** X2.  A replay pass never sends a request to the mock endpoint: every
    fetch issued during a [sync-queue] event goes to the stored URL of an
    entry that is not a mock entry. *)
Theorem replay_never_fetches_the_mock_endpoint (e : Env) (w : World) :
  exists ops,
    trace (snd (sync_listener "sync-queue" e w)) = (trace w ++ ops)%list /\
    incl (fetched ops) (map entry_url (filter (fun x => negb (is_mock x)) (store w))) /\
    ~ In "/api/mock-endpoint" (fetched ops).
Proof.
  assert (Hnot : forall l, ~ In "/api/mock-endpoint"
                             (map entry_url (filter (fun x => negb (is_mock x)) l))).
  { induction l as [|x l IH]; simpl; auto.
    destruct (is_mock x) eqn:Hm; simpl; auto.
    intros [H | H]; auto. unfold is_mock in Hm. rewrite H in Hm. discriminate. }
  rewrite sync_listener_run.
  destruct (processSyncQueue_fetches e w) as (ops & Ht & Hf & _).
  destruct (processSyncQueue_outcome e w) as [-> | ->];
    exists ops; simpl; repeat split; auto; intros Hin; exact (Hnot _ (Hf _ Hin)).
Qed.

(** X3.  The [sync] listener never lets an error out: for every tag and every
    behaviour of the platform its promise is fulfilled or, when a replay fetch
    never settles, stays pending; it is never rejected. *)
Theorem sync_listener_never_rejects (tag : string) (e : Env) (w : World) (err : JsError) :
  fst (sync_listener tag e w) <> Rejected err.
Proof.
  destruct (tag =? "sync-queue")%string eqn:E.
  - apply String.eqb_eq in E. subst tag. rewrite sync_listener_run.
    destruct (processSyncQueue_outcome e w) as [-> | ->]; discriminate.
  - unfold sync_listener. rewrite E. discriminate.
Qed.

(** ** The keys of the store *)

Lemma well_keyed_filter (f : QueueEntry -> bool) (s : list QueueEntry) (k : Z) :
  NoDup (map id s) /\ Forall (fun x => id x < k) s ->
  NoDup (map id (filter f s)) /\ Forall (fun x => id x < k) (filter f s).
Proof.
  intros [Hn Hf]. split.
  - induction s as [|x s IH]; simpl in *; auto.
    inversion Hn as [|? ? Hx Hn']; subst. inversion Hf; subst.
    destruct (f x); simpl; auto. constructor; auto.
    intros Hin. apply Hx. apply in_map_iff in Hin. destruct Hin as (y & Hy & Hin).
    apply filter_In in Hin. apply in_map_iff. exists y. tauto.
  - apply Forall_forall. intros x Hin. apply filter_In in Hin.
    rewrite Forall_forall in Hf. apply Hf. tauto.
Qed.

Lemma well_keyed_append (s : list QueueEntry) (k : Z) (d : RequestData) :
  NoDup (map id s) /\ Forall (fun x => id x < k) s ->
  NoDup (map id (s ++ [stored k d])) /\ Forall (fun x => id x < k + 1) (s ++ [stored k d]).
Proof.
  intros [Hn Hf]. split.
  - rewrite map_app. simpl.
    apply NoDup_app_remove_l with (l := []). simpl.
    apply (@NoDup_Add _ k (map id s) (map id s ++ [k])%list).
    + clear. induction (map id s); simpl; constructor; auto.
    + split; auto. intros Hin. apply in_map_iff in Hin. destruct Hin as (y & Hy & Hin).
      rewrite Forall_forall in Hf. apply Hf in Hin. lia.
  - apply Forall_app. split.
    + eapply Forall_impl; [|exact Hf]. simpl. intros; lia.
    + constructor; auto. simpl. lia.
Qed.

(** The store and the key generator after [addToSyncQueue]: nothing changed,
    or one entry appended under the next key, with a sync registered when
    the platform has background sync. *)
Lemma addToSyncQueue_effect (e : Env) (w : World) (request : Request) :
  let w' := snd (addToSyncQueue request e w) in
  exists ops, trace w' = (trace w ++ ops)%list /\
  ((store w' = store w /\ key_generator w' = key_generator w /\ registered ops = []) \/
   (exists d, store w' = (store w ++ [stored (key_generator w) d])%list /\
              key_generator w' = key_generator w + 1 /\
              fst (addToSyncQueue request e w) = Fulfilled tt /\
              registered ops = if sync_supported e then ["sync-queue"] else [])).
Proof.
  unfold addToSyncQueue, prepare_requestData, insert_promise, Request_bytes.
  unfold_async. run.
  destruct (includes ["POST"; "PUT"] (method request)); run;
    try (destruct (unusable request); run);
    try (eexists; split; [reflexivity|]; left; simpl; now auto);
    (destruct (idb_open_ok e (S (tick w))); run;
     [ rewrite Nat.eqb_refl; run;
       destruct (idb_add_ok e (S (S (tick w)))); run;
       [ destruct (sync_supported e); run; rewrite <- ?app_assoc;
         eexists; (split; [reflexivity|]); right; eexists; simpl; repeat split; reflexivity
       | rewrite <- ?app_assoc; eexists; (split; [reflexivity|]); left; simpl; auto ]
     | eexists; (split; [reflexivity|]); left; simpl; auto ]).
Qed.

(** ** The store under [handleAPIRequest] *)

(** [await caches.match(...)] reads the caches and changes nothing but the
    tick and the set of active transactions. *)
Lemma caches_match_run (m u : string) (e : Env) (w : World) :
  exists w1,
    caches_match m u e w
    = (Fulfilled (if (m =? "GET")%string then match_all (caches w) u else None), w1) /\
    store w1 = store w /\ key_generator w1 = key_generator w /\
    caches w1 = caches w /\ tick w1 = S (tick w) /\ trace w1 = trace w /\
    background w1 = background w.
Proof.
  unfold_async. run. eexists. split; [reflexivity|]. repeat split.
Qed.

(** The [try] block of [handleAPIRequest] leaves the store and the key
    generator alone. *)
Lemma try_block_frame (e : Env) (w : World) (request : Request) :
  let m := (networkResponse <- fetch_request request ;;
            (if ok networkResponse
             then caches_open DATA_CACHE_NAME ;;
                  cache_put DATA_CACHE_NAME request networkResponse
             else ret tt) ;;
            ret networkResponse) in
  store (snd (m e w)) = store w /\ key_generator (snd (m e w)) = key_generator w.
Proof.
  unfold_async. run.
  destruct (unusable request); run; auto.
  destruct (network e (tick w) (href (url request))) as [r| |]; run; auto.
  destruct (ok r); run; auto.
  destruct (assoc DATA_CACHE_NAME (caches w)); run;
    (destruct (negb (method request =? "GET")%string); run; auto;
     destruct (status r =? 206); run; auto;
     destruct (vary_star r); run; auto).
Qed.

(** Whatever the network and the store do, [handleAPIRequest] leaves the
    store as it was or appends one entry under the next key. *)
Lemma handleAPIRequest_store_effect (e : Env) (w : World) (request : Request) :
  let w' := snd (handleAPIRequest request e w) in
  (store w' = store w /\ key_generator w' = key_generator w) \/
  (exists d, store w' = (store w ++ [stored (key_generator w) d])%list /\
             key_generator w' = key_generator w + 1).
Proof.
  simpl. remember (handleAPIRequest request e w) as R eqn:ER.
  unfold handleAPIRequest in ER. unfold bind at 1 in ER.
  destruct (caches_match_run (method request) (href (url request)) e w)
    as (w1 & Hc & Hs1 & Hk1 & _).
  rewrite Hc in ER. clear Hc.
  pose proof (try_block_frame e w1 request) as HM. simpl in HM.
  unfold try_catch in ER.
  match type of HM with
  | context [snd ?X] => destruct X as [[r|err|] w2]
  end; simpl in HM; destruct HM as [Hs2 Hk2].
  - subst R. simpl. left. split; congruence.
  - destruct (if (method request =? "GET")%string
              then match_all (caches w) (href (url request)) else None);
      [subst R; simpl; left; split; congruence|].
    destruct ((method (consumed request) =? "POST")%string
              || (method (consumed request) =? "PUT")%string);
      [|subst R; simpl; left; split; congruence].
    unfold bind at 1 in ER. unfold Request_clone in ER.
    destruct (unusable (consumed request)); [subst R; simpl; left; split; congruence|].
    unfold ret at 1 in ER. unfold bind at 1 in ER.
    destruct (addToSyncQueue_effect e w2 (consumed request)) as (ops & _ & H).
    simpl in H. rewrite Hs2, Hk2, Hs1, Hk1 in H.
    destruct (addToSyncQueue (consumed request) e w2) as [[a|err'|] w3]; subst R;
      simpl in *; destruct H as [(H1 & H2 & _) | (d & H1 & H2 & _)]; eauto.
  - subst R. simpl. left. split; congruence.
Qed.

Lemma sync_listener_key_generator (tag : string) (e : Env) (w : World) :
  key_generator (snd (sync_listener tag e w)) = key_generator w.
Proof.
  destruct (tag =? "sync-queue")%string eqn:E.
  - apply String.eqb_eq in E. subst tag. rewrite sync_listener_run.
    destruct (processSyncQueue_fetches e w) as (_ & _ & _ & Hk).
    destruct (fst (processSyncQueue e w)); simpl; auto.
  - unfold sync_listener. rewrite E. reflexivity.
Qed.

(** ** The queue as the worker writes it *)

(** Every entry that [addToSyncQueue] adds is stored under the absolute URL
    of the request. *)
Lemma addToSyncQueue_writes_request_url (e : Env) (w : World) (request : Request) :
  exists l,
    store (snd (addToSyncQueue request e w)) = (store w ++ l)%list /\
    Forall (fun x => entry_url x = href (url request)) l.
Proof.
  unfold addToSyncQueue, prepare_requestData, insert_promise, Request_bytes.
  unfold_async. run.
  destruct (includes ["POST"; "PUT"] (method request)); run;
    try (destruct (unusable request); run);
    try (exists []; rewrite app_nil_r; now auto);
    (destruct (idb_open_ok e (S (tick w))); run;
     [ rewrite Nat.eqb_refl; run;
       destruct (idb_add_ok e (S (S (tick w)))); run;
       [ eexists; split; [destruct (sync_supported e); reflexivity|];
         repeat constructor
       | exists []; rewrite app_nil_r; auto ]
     | exists []; rewrite app_nil_r; auto ]).
Qed.

(** A queue in which every entry is stored under an absolute URL stays so:
    [handleAPIRequest] appends only such entries and the [sync] listener only
    removes entries, whatever the platform does. *)
Lemma worker_store_invariant (e : Env) (w : World) (request : Request) (tag : string) :
  Forall written_by_worker (store w) ->
  Forall written_by_worker (store (snd (handleAPIRequest request e w))) /\
  Forall written_by_worker (store (snd (sync_listener tag e w))).
Proof.
  intros Hw. split.
  - remember (handleAPIRequest request e w) as R eqn:ER.
    unfold handleAPIRequest in ER. unfold bind at 1 in ER.
    destruct (caches_match_run (method request) (href (url request)) e w)
      as (w1 & Hc & Hs1 & Hk1 & _).
    rewrite Hc in ER. clear Hc.
    pose proof (try_block_frame e w1 request) as HM. simpl in HM.
    unfold try_catch in ER.
    match type of HM with
    | context [snd ?X] => destruct X as [[r|err|] w2]
    end; simpl in HM; destruct HM as [Hs2 Hk2].
    + subst R. simpl. congruence.
    + destruct (if (method request =? "GET")%string
                then match_all (caches w) (href (url request)) else None);
        [subst R; simpl; congruence|].
      destruct ((method (consumed request) =? "POST")%string
                || (method (consumed request) =? "PUT")%string);
        [|subst R; simpl; congruence].
      unfold bind at 1 in ER. unfold Request_clone in ER.
      destruct (unusable (consumed request)); [subst R; simpl; congruence|].
      unfold ret at 1 in ER. unfold bind at 1 in ER.
      destruct (addToSyncQueue_writes_request_url e w2 (consumed request)) as (l & H & Hl).
      rewrite Hs2, Hs1 in H.
      assert (Hall : Forall written_by_worker (store w ++ l)).
      { apply Forall_app. split; [exact Hw|].
        eapply Forall_impl; [|exact Hl]. intros x Hx. eexists. exact Hx. }
      destruct (addToSyncQueue (consumed request) e w2) as [[a|err'|] w3]; subst R;
        simpl in *; rewrite H; exact Hall.
    + subst R. simpl. congruence.
  - destruct (tag =? "sync-queue")%string eqn:E.
    + apply String.eqb_eq in E. subst tag.
      destruct (sync_store_is_filtered e w) as (ks & _ & ->).
      rewrite Forall_forall in *. intros x Hx. apply filter_In in Hx. apply Hw, Hx.
    + unfold sync_listener. rewrite E. exact Hw.
Qed.

(** X4.  The keys of the queue stay unique and below the key generator: when
    they are so before, they are so after [handleAPIRequest] has handled any
    request and after the [sync] listener has handled any event, whatever the
    platform does. *)
Theorem keys_stay_unique (e : Env) (w : World) (request : Request) (tag : string) :
  well_keyed w ->
  well_keyed (snd (handleAPIRequest request e w)) /\
  well_keyed (snd (sync_listener tag e w)).
Proof.
  intros Hw. split.
  - destruct (handleAPIRequest_store_effect e w request) as [(Hs & Hk) | (d & Hs & Hk)];
      unfold well_keyed; rewrite Hs, Hk; [exact Hw|].
    apply well_keyed_append. exact Hw.
  - unfold well_keyed. rewrite sync_listener_key_generator.
    destruct (tag =? "sync-queue")%string eqn:E.
    + apply String.eqb_eq in E. subst tag.
      destruct (sync_store_is_filtered e w) as (ks & _ & ->).
      apply well_keyed_filter. exact Hw.
    + unfold sync_listener. rewrite E. exact Hw.
Qed.

Lemma keys_stay_unique_witness :
  let e := Sample.platform (NetResponse Sample.ok_200) true true in
  let w := Sample.with_store [Sample.entry 1 "/api/mock-endpoint";
                              Sample.entry 2 "https://example.com/api/items"] in
  well_keyed (snd (handleAPIRequest (Sample.api "PUT" "/api/items" None) e w)) /\
  well_keyed (snd (sync_listener "sync-queue" e w)).
Proof.
  apply (@keys_stay_unique (Sample.platform (NetResponse Sample.ok_200) true true)
           (Sample.with_store [Sample.entry 1 "/api/mock-endpoint";
                               Sample.entry 2 "https://example.com/api/items"])).
  split.
  - simpl. repeat constructor; simpl; intuition discriminate.
  - simpl. repeat constructor; simpl; lia.
Defined.

(** X5.  [addToSyncQueue] registers the [sync-queue] trigger only after an
    insert that succeeded: either nothing is stored and nothing is
    registered, or one entry is appended and the trigger is registered once,
    provided the platform has background sync. *)
Theorem sync_is_registered_after_insert (e : Env) (w : World) (request : Request) :
  let w' := snd (addToSyncQueue request e w) in
  exists ops,
    trace w' = (trace w ++ ops)%list /\
    ((store w' = store w /\ registered ops = []) \/
     (exists x, store w' = (store w ++ [x])%list /\
                registered ops = if sync_supported e then ["sync-queue"] else [])).
Proof.
  simpl. destruct (addToSyncQueue_effect e w request) as (ops & Ht & H).
  exists ops. split; [exact Ht|].
  destruct H as [(Hs & _ & Hr) | (d & Hs & _ & _ & Hr)]; eauto.
Qed.

(** ** Reading through the data cache *)

Ltac unfold_handler :=
  unfold handleAPIRequest, Request_clone, addToSyncQueue, prepare_requestData,
    insert_promise, Request_bytes.

(** A GET that the network answers with a response the cache accepts: the
    answer is returned, and the data cache, opened first, holds it. *)
Lemma answered_get_is_stored (e : Env) (w : World) (request : Request) (r : Response) :
  method request = "GET" ->
  body request = None ->
  network e (1 + tick w)%nat (href (url request)) = NetResponse r ->
  ok r = true ->
  status r <> 206 ->
  vary_star r = false ->
  let cs' := match assoc DATA_CACHE_NAME (caches w) with
             | Some _ => caches w
             | None => (caches w ++ [(DATA_CACHE_NAME, [])])%list
             end in
  fst (handleAPIRequest request e w) = Fulfilled r /\
  store (snd (handleAPIRequest request e w)) = store w /\
  caches (snd (handleAPIRequest request e w))
  = assoc_set DATA_CACHE_NAME
      (assoc_set (href (url request)) r
         (match assoc DATA_CACHE_NAME cs' with Some c => c | None => [] end)) cs'.
Proof.
  intros Hm Hb Hn Hok H206 Hv. simpl in Hn.
  apply Z.eqb_neq in H206.
  assert (Hu : unusable request = false) by (unfold unusable; rewrite Hb; reflexivity).
  simpl. unfold handleAPIRequest. unfold_async.
  repeat (progress (run; rewrite ?Hu, ?Hm, ?String.eqb_refl, ?Hn, ?Hok)).
  destruct (assoc DATA_CACHE_NAME (caches w)) eqn:Ea;
    repeat (progress (run; rewrite ?Hm, ?String.eqb_refl, ?H206, ?Hv, ?Ea));
    repeat split.
Qed.

(** A GET whose fetch rejects is answered with the response the caches hold
    for it. *)
Lemma cached_get_when_offline (e : Env) (w : World) (request : Request) (r : Response) :
  method request = "GET" ->
  body request = None ->
  match_all (caches w) (href (url request)) = Some r ->
  network e (1 + tick w)%nat (href (url request)) = NetReject ->
  fst (handleAPIRequest request e w) = Fulfilled r.
Proof.
  intros Hm Hb Hhit Hn. simpl in Hn.
  assert (Hu : unusable request = false) by (unfold unusable; rewrite Hb; reflexivity).
  unfold handleAPIRequest. unfold_async.
  repeat (progress (run; rewrite ?Hu, ?Hm, ?String.eqb_refl, ?Hn, ?Hhit)).
  reflexivity.
Qed.

(** X6.  Offline reads: a GET API request answered by the network with an ok
    status other than 206 and without [Vary: *] is returned and stored in the
    data cache; when no cache held a response for it before, the same request
    made later while the network fails is answered with that stored
    response. *)
Theorem api_get_is_served_from_cache_when_offline
    (e e' : Env) (w : World) (request : Request) (r : Response) :
  method request = "GET" ->
  body request = None ->
  match_all (caches w) (href (url request)) = None ->
  network e (1 + tick w)%nat (href (url request)) = NetResponse r ->
  ok r = true ->
  status r <> 206 ->
  vary_star r = false ->
  let first := handleAPIRequest request e w in
  fst first = Fulfilled r /\
  store (snd first) = store w /\
  match_all (caches (snd first)) (href (url request)) = Some r /\
  (network e' (1 + tick (snd first))%nat (href (url request)) = NetReject ->
   fst (handleAPIRequest request e' (snd first)) = Fulfilled r).
Proof.
  intros Hm Hb Hmiss Hn Hok H206 Hv first. subst first.
  destruct (@answered_get_is_stored e w request r Hm Hb Hn Hok H206 Hv) as (Hf & Hs & Hc).
  assert (Hhit : match_all (caches (snd (handleAPIRequest request e w)))
                           (href (url request)) = Some r).
  { rewrite Hc. apply match_all_after_open_put. exact Hmiss. }
  repeat split; auto.
  intros Hn'. apply cached_get_when_offline; auto.
Qed.

Lemma api_get_is_served_from_cache_when_offline_witness :
  let e := Sample.platform (NetResponse Sample.ok_200) true true in
  let e' := Sample.platform NetReject true true in
  let request := Sample.page "example.com" "/api/items" EmptyString "cors" in
  let first := handleAPIRequest request e Sample.fresh in
  fst first = Fulfilled Sample.ok_200 /\
  store (snd first) = store Sample.fresh /\
  match_all (caches (snd first)) (href (url request)) = Some Sample.ok_200 /\
  (network e' (1 + tick (snd first))%nat (href (url request)) = NetReject ->
   fst (handleAPIRequest request e' (snd first)) = Fulfilled Sample.ok_200).
Proof.
  apply (@api_get_is_served_from_cache_when_offline
           (Sample.platform (NetResponse Sample.ok_200) true true)
           (Sample.platform NetReject true true) Sample.fresh
           (Sample.page "example.com" "/api/items" EmptyString "cors") Sample.ok_200);
    try reflexivity.
  simpl. discriminate.
Defined.

(** X7.  A request of a method other than POST and PUT that finds no cached
    response and whose fetch rejects is answered with the 503 JSON error
    [{error: "Network unavailable"}]; nothing is queued and the caches are
    left as they were. *)
Theorem api_read_failure_is_a_503 (e : Env) (w : World) (request : Request) :
  method request <> "POST" ->
  method request <> "PUT" ->
  unusable request = false ->
  (method request = "GET" -> match_all (caches w) (href (url request)) = None) ->
  network e (1 + tick w)%nat (href (url request)) = NetReject ->
  let r := handleAPIRequest request e w in
  fst r = Fulfilled unavailable_response /\
  status unavailable_response = 503 /\
  store (snd r) = store w /\
  caches (snd r) = caches w.
Proof.
  intros Hpost Hput Hu Hmiss Hn. simpl in Hn.
  apply String.eqb_neq in Hpost. apply String.eqb_neq in Hput.
  simpl. unfold_handler. unfold_async.
  repeat (progress (run; rewrite ?Hu, ?Hn, ?Hpost, ?Hput)).
  destruct (method request =? "GET")%string eqn:Hg.
  - apply String.eqb_eq in Hg. rewrite (Hmiss Hg). run. rewrite ?Hpost, ?Hput. run.
    repeat split.
  - run. rewrite ?Hpost, ?Hput. run. repeat split.
Qed.

Lemma api_read_failure_is_a_503_witness :
  let e := Sample.platform NetReject true true in
  let r := handleAPIRequest (Sample.api "DELETE" "/api/items" None) e Sample.fresh in
  fst r = Fulfilled unavailable_response /\
  status unavailable_response = 503 /\
  store (snd r) = store Sample.fresh /\
  caches (snd r) = caches Sample.fresh.
Proof.
  apply (@api_read_failure_is_a_503 (Sample.platform NetReject true true) Sample.fresh
           (Sample.api "DELETE" "/api/items" None));
    try reflexivity; try discriminate.
Defined.

(** X8.  An answer of the network whose status is not ok is handed to the
    caller as it is: it is not stored in any cache and nothing is queued. *)
Theorem api_error_answer_is_passed_on
    (e : Env) (w : World) (request : Request) (r : Response) :
  unusable request = false ->
  network e (1 + tick w)%nat (href (url request)) = NetResponse r ->
  ok r = false ->
  let res := handleAPIRequest request e w in
  fst res = Fulfilled r /\ caches (snd res) = caches w /\ store (snd res) = store w.
Proof.
  intros Hu Hn Hok. simpl in Hn.
  simpl. unfold_handler. unfold_async.
  repeat (progress (run; rewrite ?Hu, ?Hn, ?Hok)).
  repeat split.
Qed.

Lemma api_error_answer_is_passed_on_witness :
  let e := Sample.platform (NetResponse Fixture.missing) true true in
  let res := handleAPIRequest (Sample.api "POST" "/api/items" (Some Sample.x_is_1))
                              e Sample.fresh in
  fst res = Fulfilled Fixture.missing /\
  caches (snd res) = caches Sample.fresh /\ store (snd res) = store Sample.fresh.
Proof.
  apply (@api_error_answer_is_passed_on
           (Sample.platform (NetResponse Fixture.missing) true true) Sample.fresh
           (Sample.api "POST" "/api/items" (Some Sample.x_is_1)) Fixture.missing);
    reflexivity.
Defined.

(** X9.  A POST or PUT without body that the network has answered with an ok
    status is queued all the same: the data cache is opened (and so created
    when it did not exist, with no entry), [cache.put] rejects the request
    because it is not a GET, the rejection lands in the [catch] clause, and the
    caller gets the queued acknowledgment instead of the answer of the
    network, with the request stored for a replay.  No cache entry is added. *)
Theorem answered_write_is_queued_again
    (e : Env) (w : World) (request : Request) (r : Response) :
  method request = "POST" \/ method request = "PUT" ->
  body request = None ->
  network e (1 + tick w)%nat (href (url request)) = NetResponse r ->
  ok r = true ->
  idb_open_ok e (5 + tick w)%nat = true ->
  idb_add_ok e (6 + tick w)%nat = true ->
  let res := handleAPIRequest request e w in
  fst res = Fulfilled queued_response /\
  caches (snd res)
  = match assoc DATA_CACHE_NAME (caches w) with
    | Some _ => caches w
    | None => (caches w ++ [(DATA_CACHE_NAME, [])])%list
    end /\
  (forall v, match_all (caches (snd res)) v = match_all (caches w) v) /\
  exists x, store (snd res) = (store w ++ [x])%list /\
            entry_url x = href (url request) /\ entry_method x = method request.
Proof.
  intros Hm Hb Hn Hok Ho Ha. simpl in Hn, Ho, Ha.
  assert (Hget : (method request =? "GET")%string = false).
  { destruct Hm as [-> | ->]; reflexivity. }
  assert (Hpp : ((method request =? "POST") || (method request =? "PUT"))%string = true).
  { destruct Hm as [-> | ->]; reflexivity. }
  assert (Hinc : includes ["POST"; "PUT"] (method request) = true).
  { destruct Hm as [-> | ->]; reflexivity. }
  assert (Hu : unusable request = false) by (unfold unusable; rewrite Hb; reflexivity).
  assert (Hc : unusable (consumed request) = false).
  { unfold unusable, consumed. simpl. rewrite Hb. reflexivity. }
  simpl. unfold_handler. unfold_async.
  repeat (progress (run; rewrite ?Hc, ?Hu, ?Hn, ?Hok)).
  destruct (assoc DATA_CACHE_NAME (caches w)) eqn:Ea;
    repeat (progress (run; rewrite ?Hc, ?Hu, ?Hget, ?Hpp, ?Hinc, ?Hb, ?filter_none,
                        ?Ho, ?Nat.eqb_refl, ?Ha));
    destruct (sync_supported e); run; repeat split;
    try (eexists; repeat split);
    try (intros v; apply match_all_new_cache).
Qed.

Lemma answered_write_is_queued_again_witness :
  let e := Sample.platform (NetResponse Sample.ok_200) true true in
  let request := Sample.api "POST" "/api/items" None in
  let res := handleAPIRequest request e Sample.fresh in
  fst res = Fulfilled queued_response /\
  caches (snd res) = [(DATA_CACHE_NAME, [])] /\
  (forall v, match_all (caches (snd res)) v = match_all (caches Sample.fresh) v) /\
  exists x, store (snd res) = (store Sample.fresh ++ [x])%list /\
            entry_url x = href (url request) /\ entry_method x = method request.
Proof.
  apply (@answered_write_is_queued_again
           (Sample.platform (NetResponse Sample.ok_200) true true) Sample.fresh
           (Sample.api "POST" "/api/items" None) Sample.ok_200); try reflexivity.
  left. reflexivity.
Defined.

(** X10.  A request that carries a body is never queued by
    [handleAPIRequest], whatever its method, the network and the caches do:
    the body went to the fetch, so the [catch] clause cannot clone the
    request, and the store stays as it was. *)
Theorem request_with_body_is_never_queued
    (e : Env) (w : World) (request : Request) (b : list Byte.byte) :
  body request = Some b ->
  store (snd (handleAPIRequest request e w)) = store w /\
  key_generator (snd (handleAPIRequest request e w)) = key_generator w.
Proof.
  intros Hb.
  assert (Hc : unusable (consumed request) = true).
  { unfold unusable, consumed. simpl. rewrite Hb. reflexivity. }
  remember (handleAPIRequest request e w) as R eqn:ER.
  unfold handleAPIRequest in ER. unfold bind at 1 in ER.
  destruct (caches_match_run (method request) (href (url request)) e w)
    as (w1 & Hm & Hs1 & Hk1 & _).
  rewrite Hm in ER. clear Hm.
  pose proof (try_block_frame e w1 request) as HM. simpl in HM.
  unfold try_catch in ER.
  match type of HM with
  | context [snd ?X] => destruct X as [[r|err|] w2]
  end; simpl in HM; destruct HM as [Hs2 Hk2].
  - subst R. simpl. split; congruence.
  - destruct (if (method request =? "GET")%string
              then match_all (caches w) (href (url request)) else None);
      [subst R; simpl; split; congruence|].
    destruct ((method (consumed request) =? "POST")%string
              || (method (consumed request) =? "PUT")%string);
      [|subst R; simpl; split; congruence].
    unfold bind at 1 in ER. unfold Request_clone in ER. rewrite Hc in ER.
    subst R. simpl. split; congruence.
  - subst R. simpl. split; congruence.
Qed.

Lemma request_with_body_is_never_queued_witness :
  let e := Sample.platform NetReject true true in
  let request := Sample.api "POST" "/api/items" (Some Sample.x_is_1) in
  store (snd (handleAPIRequest request e Sample.fresh)) = store Sample.fresh /\
  key_generator (snd (handleAPIRequest request e Sample.fresh))
  = key_generator Sample.fresh.
Proof.
  apply (@request_with_body_is_never_queued (Sample.platform NetReject true true)
           Sample.fresh (Sample.api "POST" "/api/items" (Some Sample.x_is_1))
           Sample.x_is_1).
  reflexivity.
Defined.

(** ** Static assets without the network *)

(** X11.  The promise that the fetch listener gives to [respondWith] for a
    static asset is never rejected: whatever the caches hold and the network
    does, it is fulfilled or, when the fetch never settles, stays pending. *)
Theorem static_response_never_rejects
    (e : Env) (w : World) (request : Request) (err : JsError) :
  fst (respond_static request e w) <> Rejected err.
Proof.
  unfold respond_static, fetchAndUpdateCache, start_fetchAndUpdateCache, getFixedUrl,
    fetched_then.
  unfold_async. run.
  destruct (if (method request =? "GET")%string
            then match_all (caches w) (href (url request)) else None); run;
    [discriminate|].
  match goal with
  | |- context [network e ?n ?u] => destruct (network e n u) as [r| |]
  end; run; try discriminate.
  - destruct (negb (status r =? 200) || negb (rtype r =? "basic")%string); run;
      discriminate.
  - destruct (mode request =? "navigate")%string; run; discriminate.
Qed.

(** X12.  A request that is not a navigation, misses the caches and whose
    fetch rejects is answered with the synthetic response
    [Offline content unavailable], of status 200; the caches stay as they
    were. *)
Theorem offline_subresource_gets_placeholder (e : Env) (w : World) (request : Request) :
  fst (caches_match (method request) (href (url request)) e w) = Fulfilled None ->
  (forall u, network e (2 + tick w)%nat u = NetReject) ->
  mode request <> "navigate" ->
  let res := respond_static request e w in
  fst res = Fulfilled (Some (new_Response (TextBody "Offline content unavailable") None [])) /\
  caches (snd res) = caches w /\
  background (snd res) = background w.
Proof.
  intros Hmiss Hn Hmode. simpl in Hn. apply String.eqb_neq in Hmode.
  revert Hmiss.
  unfold respond_static, fetchAndUpdateCache, start_fetchAndUpdateCache, getFixedUrl,
    fetched_then.
  unfold_async. run. intros Hmiss. injection Hmiss as Hmiss. rewrite Hmiss. run.
  rewrite Hn. run. rewrite Hmode. run. repeat split.
Qed.

Lemma offline_subresource_gets_placeholder_witness :
  let e := Sample.platform NetReject true true in
  let request := Sample.page "example.com" "/style.css" EmptyString "no-cors" in
  let res := respond_static request e Sample.fresh in
  fst res = Fulfilled (Some (new_Response (TextBody "Offline content unavailable") None [])) /\
  caches (snd res) = caches Sample.fresh /\
  background (snd res) = background Sample.fresh.
Proof.
  apply (@offline_subresource_gets_placeholder (Sample.platform NetReject true true)
           Sample.fresh (Sample.page "example.com" "/style.css" EmptyString "no-cors"));
    try reflexivity.
  discriminate.
Defined.

(** The fallback of a failed navigation is the cache lookup of the offline
    page. *)
Lemma failed_navigation_lookup (e : Env) (w : World) (request : Request) :
  fst (caches_match (method request) (href (url request)) e w) = Fulfilled None ->
  (forall u, network e (2 + tick w)%nat u = NetReject) ->
  mode request = "navigate" ->
  fst (respond_static request e w)
  = Fulfilled (match_all (caches w) (resolve e "/offline.html")).
Proof.
  intros Hmiss Hn Hmode. simpl in Hn.
  revert Hmiss.
  unfold respond_static, fetchAndUpdateCache, start_fetchAndUpdateCache, getFixedUrl,
    fetched_then.
  unfold_async. run. intros Hmiss. injection Hmiss as Hmiss. rewrite Hmiss. run.
  rewrite Hn. run. rewrite Hmode. run. reflexivity.
Qed.

(** X13.  A navigation that misses the caches and whose fetch rejects is
    answered with whatever the caches hold for [/offline.html] on the worker's
    own origin: that page when it is cached, and [undefined] when it is
    not. *)
Theorem offline_navigation_gets_offline_page (e : Env) (w : World) (request : Request) :
  fst (caches_match (method request) (href (url request)) e w) = Fulfilled None ->
  (forall u, network e (2 + tick w)%nat u = NetReject) ->
  mode request = "navigate" ->
  fst (respond_static request e w)
  = Fulfilled (match_all (caches w) (resolve e "/offline.html")).
Proof. exact (@failed_navigation_lookup e w request). Qed.

Lemma offline_navigation_gets_offline_page_witness :
  let e := Sample.platform NetReject true true in
  let w := Fixture.with_caches
             [(CACHE_NAME, [("https://example.com/offline.html", Fixture.shell)])] in
  let request := Sample.page "example.com" "/about.html" EmptyString "navigate" in
  fst (respond_static request e w)
  = Fulfilled (match_all (caches w) (resolve e "/offline.html")).
Proof.
  apply (@offline_navigation_gets_offline_page (Sample.platform NetReject true true)
           (Fixture.with_caches
              [(CACHE_NAME, [("https://example.com/offline.html", Fixture.shell)])])
           (Sample.page "example.com" "/about.html" EmptyString "navigate"));
    reflexivity.
Defined.

(** ** Installing *)

Lemma fetch_all_run (e : Env) (us : list string) :
  forall w, exists w',
    fetch_all us e w = (Fulfilled (outcomes e (tick w) us), w') /\
    caches w' = caches w /\ store w' = store w /\
    key_generator w' = key_generator w /\ background w' = background w.
Proof.
  induction us as [|u us IH]; intros w; simpl.
  - eexists. split; [reflexivity|]. auto.
  - unfold bind at 1. unfold issue_fetch. unfold_async. run.
    match goal with
    | |- context [fetch_all us e ?w0] => destruct (IH w0) as (w' & -> & Hc & Hs & Hk & Hb)
    end.
    run. eexists. split; [reflexivity|]. auto.
Qed.

Lemma assoc_set_other {A} (k k' : string) (v : A) (l : list (string * A)) :
  k <> k' -> assoc k (assoc_set k' v l) = assoc k l.
Proof.
  intros Hne. apply String.eqb_neq in Hne.
  induction l as [|[k0 v0] l IH]; simpl.
  - rewrite Hne. reflexivity.
  - destruct (k' =? k0)%string eqn:E; simpl.
    + apply String.eqb_eq in E. subst k0. rewrite Hne. reflexivity.
    + rewrite IH. reflexivity.
Qed.

(** What [put_all] leaves under a URL: the answer for it when the URL is among
    those added, and what was there before when it is not. *)
Lemma put_all_lookup (answer : string -> Response) (u : string) (us : list string) :
  forall c,
    assoc u (put_all c us (map (fun v => NetResponse (answer v)) us))
    = if existsb (String.eqb u) us then Some (answer u) else assoc u c.
Proof.
  induction us as [|u0 us IH]; intros c; simpl; auto.
  rewrite IH. destruct (existsb (String.eqb u) us); [rewrite orb_true_r; reflexivity|].
  rewrite orb_false_r. destruct (u =? u0)%string eqn:E.
  - apply String.eqb_eq in E. subst u0. apply assoc_set_same.
  - apply String.eqb_neq in E. apply assoc_set_other. exact E.
Qed.

Lemma outcomes_answered (e : Env) (answer : string -> Response) (us : list string) :
  (forall n u, In u us -> network e n u = NetResponse (answer u)) ->
  forall n, outcomes e n us = map (fun v => NetResponse (answer v)) us.
Proof.
  induction us as [|u us IH]; intros H n; simpl; auto.
  rewrite H by (left; reflexivity). rewrite IH; auto.
  intros m v Hv. apply H. right. exact Hv.
Qed.

Lemma caches_open_run (name : string) (e : Env) (w : World) :
  exists w1,
    caches_open name e w = (Fulfilled tt, w1) /\
    caches w1 = match assoc name (caches w) with
                | Some _ => caches w
                | None => (caches w ++ [(name, [])])%list
                end /\
    store w1 = store w /\ key_generator w1 = key_generator w /\
    trace w1 = trace w /\ tick w1 = S (tick w).
Proof.
  unfold caches_open. unfold_async. run.
  destruct (assoc name (caches w)); eexists; (split; [reflexivity|]); repeat split.
Qed.

(** [cache.addAll], whatever the network does. *)
Lemma cache_addAll_run (name : string) (us : list string) (e : Env) (w : World) :
  let os := outcomes e (tick w) us in
  exists w2,
    cache_addAll name us e w
    = (if existsb refused_by_addAll os then Rejected (TypeError "Request failed")
       else if existsb unsettled os then NeverSettles else Fulfilled tt, w2) /\
    caches w2
    = (if existsb refused_by_addAll os || existsb unsettled os then caches w
       else assoc_set name
              (put_all (match assoc name (caches w) with Some c => c | None => [] end)
                       us os)
              (caches w)) /\
    store w2 = store w /\ key_generator w2 = key_generator w /\
    exists ops, trace w2 = (trace w ++ ops)%list /\ posted ops = [] /\ registered ops = [].
Proof.
  simpl. unfold cache_addAll. unfold bind at 1.
  assert (Ht : forall us w, exists ops,
             trace (snd (fetch_all us e w)) = (trace w ++ ops)%list /\
             posted ops = [] /\ registered ops = []).
  { clear. induction us as [|u us IH]; intros w; simpl.
    - exists []. rewrite app_nil_r. auto.
    - unfold bind at 1. unfold issue_fetch. unfold_async. run.
      match goal with
      | |- context [fetch_all us e ?w0] =>
          destruct (IH w0) as (ops & Ht & Hp & Hr);
          destruct (fetch_all us e w0) as [[a|err|] w1]; simpl in *;
          rewrite Ht; run; rewrite <- app_assoc; eexists; (split; [reflexivity|]);
          simpl; auto
      end. }
  destruct (Ht us w) as (ops & Htr & Hp & Hr).
  destruct (fetch_all_run e us w) as (w' & Hf & Hc & Hs & Hk & _).
  rewrite Hf in *. simpl in Htr.
  unfold bind at 1. unfold event_loop at 1. unfold modify at 1.
  destruct (existsb refused_by_addAll (outcomes e (tick w) us)); simpl.
  - eexists. split; [reflexivity|]. simpl. eauto 10.
  - destruct (existsb unsettled (outcomes e (tick w) us)); simpl.
    + eexists. split; [reflexivity|]. simpl. eauto 10.
    + unfold modify. eexists. split; [reflexivity|]. simpl. rewrite Hc. eauto 10.
Qed.

(** Precaching, whatever the network does: the cache exists afterwards, and
    it has been filled if and only if every asset was accepted. *)
Lemma precache_run (e : Env) (w : World) :
  let cs := match assoc CACHE_NAME (caches w) with
            | Some _ => caches w
            | None => (caches w ++ [(CACHE_NAME, [])])%list
            end in
  let os := outcomes e (S (tick w)) (precache_urls e) in
  fst (precache e w)
  = (if existsb refused_by_addAll os then Fulfilled tt
     else if existsb unsettled os then NeverSettles else Fulfilled tt) /\
  caches (snd (precache e w))
  = (if existsb refused_by_addAll os || existsb unsettled os then cs
     else assoc_set CACHE_NAME
            (put_all (match assoc CACHE_NAME cs with Some c => c | None => [] end)
                     (precache_urls e) os) cs) /\
  store (snd (precache e w)) = store w /\
  key_generator (snd (precache e w)) = key_generator w /\
  (existsb refused_by_addAll os = true ->
   exists ops, trace (snd (precache e w))
               = (trace w ++ ops ++ [OpConsoleError "Precaching failed:"])%list).
Proof.
  intros cs os. remember (precache e w) as R eqn:ER.
  unfold precache, try_catch in ER. unfold bind at 1 in ER.
  destruct (caches_open_run CACHE_NAME e w) as (w1 & Hopen & Hc1 & Hs1 & Hk1 & Ht1 & Hn1).
  rewrite Hopen in ER. clear Hopen.
  unfold bind at 1 in ER. unfold ask at 1 in ER. fold (precache_urls e) in ER.
  destruct (cache_addAll_run CACHE_NAME (precache_urls e) e w1)
    as (w2 & Hadd & Hc2 & Hs2 & Hk2 & ops & Ht2 & _).
  rewrite Hadd in ER. clear Hadd.
  rewrite Hn1 in *. fold os in ER, Hc2. rewrite Hc1 in Hc2. fold cs in Hc2.
  destruct (existsb refused_by_addAll os).
  - unfold console_error, emit, modify in ER. subst R. simpl in *.
    repeat split; try congruence. intros _. exists ops.
    rewrite Ht2, Ht1, app_assoc. reflexivity.
  - destruct (existsb unsettled os); subst R; simpl in *;
      repeat split; try congruence; discriminate.
Qed.

Lemma existsb_eqb_in (u : string) (us : list string) :
  In u us -> existsb (String.eqb u) us = true.
Proof.
  intros H. apply existsb_exists. exists u. split; auto. apply String.eqb_refl.
Qed.

Lemma answers_accepted (answer : string -> Response) (us : list string) :
  (forall u, In u us ->
     ok (answer u) = true /\ status (answer u) <> 206 /\ vary_star (answer u) = false) ->
  existsb refused_by_addAll (map (fun v => NetResponse (answer v)) us) = false /\
  existsb unsettled (map (fun v => NetResponse (answer v)) us) = false.
Proof.
  induction us as [|u us IH]; simpl; intros Hok; auto.
  destruct (Hok u (or_introl eq_refl)) as (H1 & H2 & H3).
  apply Z.eqb_neq in H2. rewrite H1, H2, H3. simpl. apply IH. intros; apply Hok; auto.
Qed.

(** The caches after a precaching in which every asset was accepted. *)
Lemma precache_accepted (e : Env) (w : World) (answer : string -> Response) :
  (forall n u, In u (precache_urls e) -> network e n u = NetResponse (answer u)) ->
  (forall u, In u (precache_urls e) ->
     ok (answer u) = true /\ status (answer u) <> 206 /\ vary_star (answer u) = false) ->
  let cs := match assoc CACHE_NAME (caches w) with
            | Some _ => caches w
            | None => (caches w ++ [(CACHE_NAME, [])])%list
            end in
  fst (precache e w) = Fulfilled tt /\
  store (snd (precache e w)) = store w /\
  caches (snd (precache e w))
  = assoc_set CACHE_NAME
      (put_all (match assoc CACHE_NAME cs with Some c => c | None => [] end)
               (precache_urls e)
               (map (fun v => NetResponse (answer v)) (precache_urls e))) cs.
Proof.
  intros Hnet Hok cs.
  destruct (precache_run e w) as (Hf & Hc & Hs & _).
  rewrite (@outcomes_answered e answer (precache_urls e) Hnet) in Hf, Hc.
  destruct (@answers_accepted answer (precache_urls e) Hok) as [Hr Hu].
  rewrite Hr, Hu in Hf, Hc. simpl in Hc. auto.
Qed.

(** X15.  Installing: when every precached asset is answered with an ok
    status other than 206 and without [Vary: *], the promise of the [install] listener is fulfilled,
    [skipWaiting] has been called, and the cache [pwa-cache-v1] holds for every
    asset of the manifest, under its absolute URL, the response the network
    gave for it; the queue is not touched. *)
Theorem install_caches_every_asset (e : Env) (w : World) (answer : string -> Response) :
  (forall n u, In u (precache_urls e) -> network e n u = NetResponse (answer u)) ->
  (forall u, In u (precache_urls e) ->
     ok (answer u) = true /\ status (answer u) <> 206 /\ vary_star (answer u) = false) ->
  let r := install_listener e w in
  fst (fst r) = Fulfilled tt /\
  snd r = [SkipWaiting] /\
  store (snd (fst r)) = store w /\
  forall path, In path PRECACHE_ASSETS ->
    exists c, assoc CACHE_NAME (caches (snd (fst r))) = Some c /\
              assoc (resolve e path) c = Some (answer (resolve e path)).
Proof.
  intros Hnet Hok. simpl.
  destruct (@precache_accepted e w answer Hnet Hok) as (Hf & Hs & Hc).
  repeat split; auto. intros path Hin. rewrite Hc.
  eexists. split; [apply assoc_set_same|].
  rewrite put_all_lookup, existsb_eqb_in; auto.
  unfold precache_urls. apply in_map. exact Hin.
Qed.

Lemma install_caches_every_asset_witness :
  let e := Fixture.platform_by_url (fun _ => NetResponse Fixture.shell) in
  let r := install_listener e Sample.fresh in
  fst (fst r) = Fulfilled tt /\
  snd r = [SkipWaiting] /\
  store (snd (fst r)) = store Sample.fresh /\
  forall path, In path PRECACHE_ASSETS ->
    exists c, assoc CACHE_NAME (caches (snd (fst r))) = Some c /\
              assoc (resolve e path) c = Some (Fixture.shell).
Proof.
  apply (@install_caches_every_asset
           (Fixture.platform_by_url (fun _ => NetResponse Fixture.shell)) Sample.fresh
           (fun _ => Fixture.shell)).
  - reflexivity.
  - intros u _. split; [reflexivity|split; [discriminate|reflexivity]].
Defined.

Lemma one_refusal_refuses_all (e : Env) (u : string) (us : list string) :
  In u us -> (forall n, refused_by_addAll (network e n u) = true) ->
  forall n, existsb refused_by_addAll (outcomes e n us) = true.
Proof.
  intros Hin Hr. induction us as [|v us IH]; intros n; simpl; [destruct Hin|].
  destruct Hin as [-> | Hin]; [rewrite Hr; reflexivity|].
  rewrite IH; auto. apply orb_true_r.
Qed.

(** X16.  Installing is all or nothing: when the fetch of one asset of the
    manifest fails, or is answered with a status that is not ok or is 206 or
    with [Vary: *], no asset is stored, so every cache lookup gives what it gave before; the
    failure is logged, the promise of the listener is fulfilled all the same
    and [skipWaiting] has been called. *)
Theorem failed_install_stores_nothing (e : Env) (w : World) (u : string) :
  In u (precache_urls e) ->
  (forall n, refused_by_addAll (network e n u) = true) ->
  let r := install_listener e w in
  fst (fst r) = Fulfilled tt /\
  snd r = [SkipWaiting] /\
  (forall v, match_all (caches (snd (fst r))) v = match_all (caches w) v) /\
  store (snd (fst r)) = store w /\
  exists ops, trace (snd (fst r))
              = (trace w ++ ops ++ [OpConsoleError "Precaching failed:"])%list.
Proof.
  intros Hin Hr. simpl.
  destruct (precache_run e w) as (Hf & Hc & Hs & _ & Ht).
  rewrite (@one_refusal_refuses_all e u (precache_urls e) Hin Hr) in Hf, Hc, Ht.
  simpl in Hc. repeat split; auto.
  intros v. rewrite Hc. destruct (assoc CACHE_NAME (caches w)); auto.
  apply match_all_new_cache.
Qed.

Lemma failed_install_stores_nothing_witness :
  let e := Fixture.platform_by_url
             (fun u => if (u =? "https://example.com/IP-LAB3/coder.avif")%string
                       then NetResponse Fixture.missing
                       else NetResponse Fixture.shell) in
  let r := install_listener e Sample.fresh in
  fst (fst r) = Fulfilled tt /\
  snd r = [SkipWaiting] /\
  (forall v, match_all (caches (snd (fst r))) v = match_all (caches Sample.fresh) v) /\
  store (snd (fst r)) = store Sample.fresh /\
  exists ops, trace (snd (fst r))
              = (trace Sample.fresh ++ ops ++ [OpConsoleError "Precaching failed:"])%list.
Proof.
  apply (@failed_install_stores_nothing
           (Fixture.platform_by_url
              (fun u => if (u =? "https://example.com/IP-LAB3/coder.avif")%string
                        then NetResponse Fixture.missing
                        else NetResponse Fixture.shell))
           Sample.fresh "https://example.com/IP-LAB3/coder.avif").
  - simpl. auto.
  - intros n. reflexivity.
Defined.

Lemma string_append_cancel (s a b : string) : (s ++ a = s ++ b)%string -> a = b.
Proof. induction s as [|x s IH]; simpl; intros H; auto. injection H as H. auto. Qed.

Lemma resolve_injective (e : Env) (p q : string) : resolve e p = resolve e q -> p = q.
Proof.
  unfold resolve. intros H.
  apply string_append_cancel in H. apply string_append_cancel in H.
  apply string_append_cancel in H. exact H.
Qed.

Lemma offline_url_is_not_precached (e : Env) :
  existsb (String.eqb (resolve e OFFLINE_URL)) (precache_urls e) = false.
Proof.
  unfold precache_urls, PRECACHE_ASSETS. simpl.
  repeat match goal with
  | |- context [(resolve e ?p =? resolve e ?q)%string] =>
      let E := fresh "E" in
      destruct (resolve e p =? resolve e q)%string eqn:E;
      [apply String.eqb_eq, resolve_injective in E; discriminate|]
  end.
  reflexivity.
Qed.

(** X17.  After an install on an origin without caches, in which every asset
    was answered with an ok status other than 206 and without [Vary: *], the
    offline fallback is missing: the manifest caches the offline page under
    [/IP-LAB3/offline.html], the fetch listener looks it up under
    [/offline.html], so a navigation that misses the caches while the network
    fails is answered with [undefined]. *)
Theorem installed_offline_page_is_not_found
    (e e' : Env) (w : World) (answer : string -> Response) (request : Request) :
  caches w = [] ->
  (forall n u, In u (precache_urls e) -> network e n u = NetResponse (answer u)) ->
  (forall u, In u (precache_urls e) ->
     ok (answer u) = true /\ status (answer u) <> 206 /\ vary_star (answer u) = false) ->
  location_protocol e' = location_protocol e ->
  location_hostname e' = location_hostname e ->
  let w1 := snd (fst (install_listener e w)) in
  mode request = "navigate" ->
  fst (caches_match (method request) (href (url request)) e' w1) = Fulfilled None ->
  (forall u, network e' (2 + tick w1)%nat u = NetReject) ->
  match_all (caches w1) (resolve e "/IP-LAB3/offline.html")
  = Some (answer (resolve e "/IP-LAB3/offline.html")) /\
  match_all (caches w1) (resolve e OFFLINE_URL) = None /\
  fst (respond_static request e' w1) = Fulfilled None.
Proof.
  intros Hempty Hnet Hok Hp Hh w1 Hmode Hmiss Hrej.
  destruct (@precache_accepted e w answer Hnet Hok) as (_ & _ & Hc).
  rewrite Hempty in Hc. simpl in Hc.
  assert (Hcaches : caches w1
                    = [(CACHE_NAME,
                        put_all [] (precache_urls e)
                                (map (fun v => NetResponse (answer v)) (precache_urls e)))]).
  { exact Hc. }
  assert (Hoff : match_all (caches w1) (resolve e OFFLINE_URL) = None).
  { rewrite Hcaches. unfold match_all.
    rewrite put_all_lookup, offline_url_is_not_precached. reflexivity. }
  split; [|split; [exact Hoff|]].
  - rewrite Hcaches. unfold match_all. rewrite put_all_lookup, existsb_eqb_in; auto.
    unfold precache_urls, PRECACHE_ASSETS. simpl. auto.
  - rewrite (@failed_navigation_lookup e' w1 request Hmiss Hrej Hmode).
    replace (resolve e' "/offline.html") with (resolve e OFFLINE_URL);
      [rewrite Hoff; reflexivity|].
    unfold resolve, OFFLINE_URL. rewrite Hp, Hh. reflexivity.
Qed.

Lemma installed_offline_page_is_not_found_witness :
  let e := Fixture.platform_by_url (fun _ => NetResponse Fixture.shell) in
  let e' := Sample.platform NetReject true true in
  let request := Sample.page "example.com" "/IP-LAB3/about.html" EmptyString "navigate" in
  let w1 := snd (fst (install_listener e Sample.fresh)) in
  match_all (caches w1) (resolve e "/IP-LAB3/offline.html") = Some Fixture.shell /\
  match_all (caches w1) (resolve e OFFLINE_URL) = None /\
  fst (respond_static request e' w1) = Fulfilled None.
Proof.
  apply (@installed_offline_page_is_not_found
           (Fixture.platform_by_url (fun _ => NetResponse Fixture.shell))
           (Sample.platform NetReject true true) Sample.fresh (fun _ => Fixture.shell)
           (Sample.page "example.com" "/IP-LAB3/about.html" EmptyString "navigate"));
    try reflexivity.
  intros u _. split; [reflexivity|split; [discriminate|reflexivity]].
Defined.

(** ** Activating *)

Lemma assoc_filter_kept {A} (keep : string -> bool) (name : string) (l : list (string * A)) :
  keep name = true ->
  assoc name (filter (fun c => keep (fst c)) l) = assoc name l.
Proof.
  intros Hk. induction l as [|[n v] l IH]; simpl; auto.
  destruct (name =? n)%string eqn:E.
  - apply String.eqb_eq in E. subst n. rewrite Hk. simpl. rewrite String.eqb_refl.
    reflexivity.
  - destruct (keep n); simpl; [rewrite E|]; exact IH.
Qed.

(** X18.  Activating deletes exactly the caches of other generations: after
    the [activate] listener every cache is named [pwa-cache-v1] or
    [data-cache-v1], these two hold what they held before, the queue is not
    touched, and the listener ends by claiming the open pages. *)
Theorem activate_keeps_current_caches_only (e : Env) (w : World) :
  let r := activate_listener e w in
  fst r = Fulfilled [ClientsClaim] /\
  (forall name, In name (map fst (caches (snd r))) ->
                name = CACHE_NAME \/ name = DATA_CACHE_NAME) /\
  assoc CACHE_NAME (caches (snd r)) = assoc CACHE_NAME (caches w) /\
  assoc DATA_CACHE_NAME (caches (snd r)) = assoc DATA_CACHE_NAME (caches w) /\
  store (snd r) = store w.
Proof.
  unfold activate_listener. unfold_async. run.
  set (keep := fun name : string =>
                 negb (negb (name =? CACHE_NAME)%string
                       && negb (name =? DATA_CACHE_NAME)%string)).
  change (filter _ (caches w)) with (filter (fun c => keep (fst c)) (caches w)).
  repeat split.
  - intros name Hin. apply in_map_iff in Hin. destruct Hin as ([n c] & <- & Hin).
    apply filter_In in Hin. destruct Hin as [_ Hk]. unfold keep in Hk. simpl in *.
    destruct (n =? CACHE_NAME)%string eqn:E1; [left; apply String.eqb_eq; exact E1|].
    destruct (n =? DATA_CACHE_NAME)%string eqn:E2; [right; apply String.eqb_eq; exact E2|].
    discriminate.
  - apply assoc_filter_kept. reflexivity.
  - apply assoc_filter_kept. reflexivity.
Qed.

(** X19.  A response that only a cache of another generation holds is no
    longer found after activation, and activating a second time changes no
    cache. *)
Theorem activate_drops_old_generations (e e' : Env) (w : World) (name u : string) (c : Cache) :
  caches w = [(name, c)] ->
  name <> CACHE_NAME ->
  name <> DATA_CACHE_NAME ->
  let w1 := snd (activate_listener e w) in
  match_all (caches w1) u = None /\
  caches (snd (activate_listener e' w1)) = caches w1.
Proof.
  intros Hc H1 H2. apply String.eqb_neq in H1. apply String.eqb_neq in H2.
  unfold activate_listener. unfold_async. run. rewrite Hc. simpl.
  rewrite H1, H2. simpl. split; reflexivity.
Qed.

Lemma activate_drops_old_generations_witness :
  let e := Sample.platform NetReject true true in
  let w := Fixture.with_caches
             [("pwa-cache-v0", [("https://example.com/index.html", Fixture.shell)])] in
  let w1 := snd (activate_listener e w) in
  match_all (caches w1) "https://example.com/index.html" = None /\
  caches (snd (activate_listener e w1)) = caches w1.
Proof.
  apply (@activate_drops_old_generations (Sample.platform NetReject true true)
           (Sample.platform NetReject true true)
           (Fixture.with_caches
              [("pwa-cache-v0", [("https://example.com/index.html", Fixture.shell)])])
           "pwa-cache-v0" "https://example.com/index.html"
           [("https://example.com/index.html", Fixture.shell)]);
    try reflexivity; discriminate.
Defined.

(** ** Push payloads *)

(** X20.  The [push] listener shows a notification for every event but one:
    it throws, and shows nothing, exactly when the payload parses to the JSON
    value [null]. *)
Theorem push_fails_only_on_null (data : option PushMessageData) (now : Z) :
  (exists s, push_listener data now = Fulfilled s) <->
  ~ (exists d, data = Some d /\ json d = Some JNull).
Proof.
  unfold push_listener, notificationData. split.
  - intros [s Hs] (d & -> & Hj). rewrite Hj in Hs. discriminate.
  - intros Hn. destruct data as [d|]; [|simpl; eauto].
    destruct (json d) as [v|] eqn:Hj; [|simpl; eauto].
    destruct v; simpl; eauto. exfalso. apply Hn. eauto.
Qed.

(** X21.  A payload that does not parse is shown under the title
    [New Notification] with its text as the body, or the default body when
    the text is empty, and with the default icon and target URL. *)
Theorem unparsable_push_is_shown_as_text (d : PushMessageData) (now : Z) :
  json d = None ->
  exists s,
    push_listener (Some d) now = Fulfilled s /\
    shown_title s = Some (JStr "New Notification") /\
    opt_body (shown_options s)
    = JStr (if (text d =? EmptyString)%string then "No details available" else text d) /\
    opt_icon (shown_options s) = JStr "/IP-LAB3/coder.avif" /\
    opt_data_url (shown_options s) = JStr "/IP-LAB3/index.html" /\
    opt_data_dateOfArrival (shown_options s) = now.
Proof.
  intros Hj. unfold push_listener, notificationData. rewrite Hj. simpl.
  eexists. split; [reflexivity|]. simpl. repeat split.
  destruct (text d =? EmptyString)%string; reflexivity.
Qed.

Lemma unparsable_push_is_shown_as_text_witness :
  exists s,
    push_listener (Some (mkPush "hello" None)) 5 = Fulfilled s /\
    shown_title s = Some (JStr "New Notification") /\
    opt_body (shown_options s)
    = JStr (if (text (mkPush "hello" None) =? EmptyString)%string
            then "No details available" else text (mkPush "hello" None)) /\
    opt_icon (shown_options s) = JStr "/IP-LAB3/coder.avif" /\
    opt_data_url (shown_options s) = JStr "/IP-LAB3/index.html" /\
    opt_data_dateOfArrival (shown_options s) = 5.
Proof.
  apply (@unparsable_push_is_shown_as_text (mkPush "hello" None) 5). reflexivity.
Defined.

(** X22.  A field of the payload that is present but falsy ([null], [false],
    [0] or the empty string) is replaced by the default like a missing one,
    and a truthy one is passed on as it is. *)
Theorem push_field_or_default (d : PushMessageData) (fields : list (string * JValue))
    (now : Z) :
  json d = Some (JObj fields) ->
  exists s,
    push_listener (Some d) now = Fulfilled s /\
    opt_body (shown_options s)
    = (if truthy (last_assoc "body" fields)
       then match last_assoc "body" fields with Some v => v | None => JNull end
       else JStr "No details available") /\
    opt_data_url (shown_options s)
    = (if truthy (last_assoc "url" fields)
       then match last_assoc "url" fields with Some v => v | None => JNull end
       else JStr "/IP-LAB3/index.html").
Proof.
  intros Hj. unfold push_listener, notificationData. rewrite Hj. simpl.
  eexists. split; [reflexivity|]. simpl. unfold or_default.
  split.
  - destruct (last_assoc "body" fields) as [v|]; [|reflexivity]. reflexivity.
  - destruct (last_assoc "url" fields) as [v|]; [|reflexivity]. reflexivity.
Qed.

Lemma push_field_or_default_witness :
  let fields := [("body", JStr EmptyString); ("url", JStr "/IP-LAB3/news.html")] in
  exists s,
    push_listener (Some (mkPush "{...}" (Some (JObj fields)))) 5 = Fulfilled s /\
    opt_body (shown_options s)
    = (if truthy (last_assoc "body" fields)
       then match last_assoc "body" fields with Some v => v | None => JNull end
       else JStr "No details available") /\
    opt_data_url (shown_options s)
    = (if truthy (last_assoc "url" fields)
       then match last_assoc "url" fields with Some v => v | None => JNull end
       else JStr "/IP-LAB3/index.html").
Proof.
  apply (@push_field_or_default
           (mkPush "{...}" (Some (JObj [("body", JStr EmptyString);
                                        ("url", JStr "/IP-LAB3/news.html")])))
           [("body", JStr EmptyString); ("url", JStr "/IP-LAB3/news.html")] 5).
  reflexivity.
Defined.

(** ** Clicking a notification *)

(** What the loop over the pages finds. *)
Lemma first_at_spec (targetURL : JsValue) (windowClients : list WindowClient) :
  match first_at targetURL windowClients with
  | Some c =>
      exists before client after,
        windowClients = (before ++ client :: after)%list /\
        client_id client = c /\
        strictly_equal (client_url client) targetURL = true /\
        client_can_focus client = true /\
        Forall (fun x => strictly_equal (client_url x) targetURL && client_can_focus x
                         = false) before
  | None =>
      Forall (fun x => strictly_equal (client_url x) targetURL && client_can_focus x
                       = false) windowClients
  end.
Proof.
  induction windowClients as [|x l IH]; simpl; [constructor|].
  destruct (strictly_equal (client_url x) targetURL && client_can_focus x) eqn:E.
  - apply andb_true_iff in E. destruct E as [E1 E2].
    exists [], x, l. repeat split; auto.
  - destruct (first_at targetURL l) as [c|].
    + destruct IH as (before & client & after & -> & Hc & H1 & H2 & Hf).
      exists (x :: before), client, after. repeat split; auto.
    + constructor; auto.
Qed.

(** X23.  The action [close] only closes the notification: no page is
    focused and no window is opened, whatever pages are open. *)
Theorem close_action_only_closes (data : JValue) (windowClients : list WindowClient)
    (openWindow : bool) :
  data <> JNull ->
  notificationclick_listener "close" data windowClients openWindow
  = ([NotificationClose], None).
Proof.
  intros Hd. unfold notificationclick_listener.
  destruct data; try congruence; reflexivity.
Qed.

Lemma close_action_only_closes_witness :
  notificationclick_listener "close" (JObj [("url", JStr "/IP-LAB3/index.html")])
    [Fixture.tab 1 "/IP-LAB3/index.html"] true
  = ([NotificationClose], None).
Proof.
  apply (@close_action_only_closes (JObj [("url", JStr "/IP-LAB3/index.html")])
           [Fixture.tab 1 "/IP-LAB3/index.html"] true).
  discriminate.
Defined.

(** X24.  Any other action focuses or opens, never both: when a page that can
    be focused is at the notification's URL, the first such page is focused
    and no window is opened; when there is none, a window is opened at that
    URL if the platform can open windows, and nothing more happens if it
    cannot. *)
Theorem click_focuses_or_opens (action : string) (data : JValue) (u : string)
    (windowClients : list WindowClient) (openWindow : bool) :
  action <> "close" ->
  get_property data "url" = Fulfilled (Some (JStr u)) ->
  let matches := fun x => (client_url x =? u)%string && client_can_focus x in
  (exists before client after,
      windowClients = (before ++ client :: after)%list /\
      matches client = true /\
      Forall (fun x => matches x = false) before /\
      notificationclick_listener action data windowClients openWindow
      = ([NotificationClose; ClientFocus (client_id client)], None)) \/
  (Forall (fun x => matches x = false) windowClients /\
   notificationclick_listener action data windowClients openWindow
   = (if openWindow then [NotificationClose; OpenWindow (Some (JStr u))]
      else [NotificationClose], None)).
Proof.
  intros Ha Hd. simpl. apply String.eqb_neq in Ha.
  unfold notificationclick_listener. rewrite Hd, Ha.
  pose proof (first_at_spec (Some (JStr u)) windowClients) as H.
  destruct (first_at (Some (JStr u)) windowClients) as [c|].
  - left. destruct H as (before & client & after & -> & Hc & H1 & H2 & Hf).
    exists before, client, after. simpl in H1. rewrite H1, H2, <- Hc.
    repeat split; auto.
  - right. split; [exact H|]. destruct openWindow; reflexivity.
Qed.

Lemma click_focuses_or_opens_witness :
  let data := JObj [("url", JStr "/IP-LAB3/index.html")] in
  let windowClients := [Fixture.tab 1 "/IP-LAB3/other.html";
                        Fixture.tab 2 "/IP-LAB3/index.html";
                        Fixture.tab 3 "/IP-LAB3/index.html"] in
  let matches := fun x => (client_url x =? "/IP-LAB3/index.html")%string
                          && client_can_focus x in
  (exists before client after,
      windowClients = (before ++ client :: after)%list /\
      matches client = true /\
      Forall (fun x => matches x = false) before /\
      notificationclick_listener "explore" data windowClients true
      = ([NotificationClose; ClientFocus (client_id client)], None)) \/
  (Forall (fun x => matches x = false) windowClients /\
   notificationclick_listener "explore" data windowClients true
   = (if true then [NotificationClose; OpenWindow (Some (JStr "/IP-LAB3/index.html"))]
      else [NotificationClose], None)).
Proof.
  apply (@click_focuses_or_opens "explore" (JObj [("url", JStr "/IP-LAB3/index.html")])
           "/IP-LAB3/index.html"
           [Fixture.tab 1 "/IP-LAB3/other.html"; Fixture.tab 2 "/IP-LAB3/index.html";
            Fixture.tab 3 "/IP-LAB3/index.html"] true).
  - discriminate.
  - reflexivity.
Defined.

(** ** The refresh behind a cache hit *)

Lemma run_background_idle (n : nat) (e : Env) (w : World) :
  background w = [] -> run_background n e w = w.
Proof.
  revert w. induction n as [|n IH]; intros w Hb; simpl; auto.
  unfold run_next. rewrite Hb. apply IH. exact Hb.
Qed.

(** X25.  Stale while revalidate: after a cache hit in [pwa-cache-v1], when
    the refetch is answered with a response of status 200 and type [basic]
    that carries no [Vary: *], the tasks left behind by the listener replace the stored response, so
    that the next lookup of the request finds the fresh one. *)
Theorem cache_hit_is_refreshed (e e' : Env) (w : World) (request : Request)
    (c : Cache) (rest : list (string * Cache)) (stale fresh : Response) :
  method request = "GET" ->
  caches w = (CACHE_NAME, c) :: rest ->
  assoc (href (url request)) c = Some stale ->
  background w = [] ->
  (forall u, network e (2 + tick w)%nat u = NetResponse fresh) ->
  status fresh = 200 ->
  rtype fresh = "basic" ->
  vary_star fresh = false ->
  let hit := respond_static request e w in
  fst hit = Fulfilled (Some stale) /\
  caches (snd hit) = caches w /\
  match_all (caches (run_background 2 e' (snd hit))) (href (url request)) = Some fresh.
Proof.
  intros Hm Hc Hin Hb Hn Hs Ht Hv. simpl in Hn.
  assert (Hg : negb (status fresh =? 200) || negb (rtype fresh =? "basic")%string = false).
  { rewrite Hs, Ht. reflexivity. }
  assert (H206 : (status fresh =? 206) = false) by (rewrite Hs; reflexivity).
  unfold run_background, run_next, run_task.
  unfold respond_static, start_fetchAndUpdateCache, getFixedUrl, fetched_then.
  unfold_async.
  repeat (progress (run; rewrite ?Hm, ?String.eqb_refl, ?Hc, ?Hin, ?Hb, ?Hn, ?Hg, ?H206, ?Hv)).
  repeat split.
  rewrite assoc_set_same. reflexivity.
Qed.

Lemma cache_hit_is_refreshed_witness :
  let e := Sample.platform (NetResponse Sample.ok_200) true true in
  let w := Fixture.with_caches
             [(CACHE_NAME, [("https://example.com/index.html", Fixture.shell)])] in
  let request := Sample.page "example.com" "/index.html" EmptyString "navigate" in
  let hit := respond_static request e w in
  fst hit = Fulfilled (Some Fixture.shell) /\
  caches (snd hit) = caches w /\
  match_all (caches (run_background 2 e (snd hit))) (href (url request))
  = Some Sample.ok_200.
Proof.
  apply (@cache_hit_is_refreshed
           (Sample.platform (NetResponse Sample.ok_200) true true)
           (Sample.platform (NetResponse Sample.ok_200) true true)
           (Fixture.with_caches
              [(CACHE_NAME, [("https://example.com/index.html", Fixture.shell)])])
           (Sample.page "example.com" "/index.html" EmptyString "navigate")
           [("https://example.com/index.html", Fixture.shell)] []
           Fixture.shell Sample.ok_200); reflexivity.
Defined.

(** X26.  A refresh that fails leaves the caches alone: after a cache hit,
    when the refetch rejects, never settles, or is answered with a response
    that is not of status 200 and type [basic], the caches are the same
    however long the tasks left behind are run. *)
Theorem failed_refresh_keeps_the_cache (e e' : Env) (w : World) (request : Request)
    (stale : Response) (n : nat) :
  fst (caches_match (method request) (href (url request)) e w) = Fulfilled (Some stale) ->
  background w = [] ->
  (forall u r, network e (2 + tick w)%nat u = NetResponse r ->
               negb (status r =? 200) || negb (rtype r =? "basic")%string = true) ->
  let hit := respond_static request e w in
  fst hit = Fulfilled (Some stale) /\
  caches (run_background n e' (snd hit)) = caches w.
Proof.
  intros Hhit Hb Hn. simpl in Hn. revert Hhit.
  unfold respond_static, start_fetchAndUpdateCache, getFixedUrl.
  unfold_async. run. intros Hhit. injection Hhit as Hhit. rewrite Hhit. run.
  split; [reflexivity|].
  destruct n as [|n]; [reflexivity|].
  simpl. unfold run_next at 1. run. rewrite Hb. run.
  unfold run_task, fetched_then. unfold_async. run.
  match goal with
  | |- context [network e ?k ?u] =>
      pose proof (Hn u) as Hu; destruct (network e k u) as [r| |]
  end; run.
  - rewrite (Hu r eq_refl). run. rewrite run_background_idle; reflexivity.
  - rewrite run_background_idle; reflexivity.
  - rewrite run_background_idle; reflexivity.
Qed.

Lemma failed_refresh_keeps_the_cache_witness :
  let e := Sample.platform NetReject true true in
  let w := Fixture.with_caches
             [(CACHE_NAME, [("https://example.com/index.html", Fixture.shell)])] in
  let request := Sample.page "example.com" "/index.html" EmptyString "navigate" in
  let hit := respond_static request e w in
  fst hit = Fulfilled (Some Fixture.shell) /\
  caches (run_background 3 e (snd hit)) = caches w.
Proof.
  apply (@failed_refresh_keeps_the_cache (Sample.platform NetReject true true)
           (Sample.platform NetReject true true)
           (Fixture.with_caches
              [(CACHE_NAME, [("https://example.com/index.html", Fixture.shell)])])
           (Sample.page "example.com" "/index.html" EmptyString "navigate")
           Fixture.shell 3); try reflexivity.
  intros u r H. discriminate.
Defined.
